(** * checker-mp-server: the Room durable object of [src/worker.js]

    A shallow embedding of the [Room] class (seat allocation, presence
    listing, message dispatch, broadcast, disconnection) and the properties
    of its connection/session state machine.

    Conventions of the embedding.
    - A JavaScript string is its sequence of UTF-16 code units, so [length]
      is [String.prototype.length] and [take 24] is [slice(0, 24)].
    - A JavaScript number is an IEEE-754 double, kept as the Standard
      Library's [spec_float]; the relay computes with seat indices only,
      which are integers and are kept in [Z] until they are stored in a frame.
    - [this.sockets] is a [Map]: an association list in insertion order with
      unique keys.  [this.names] is an array, i.e. an object keyed by index:
      a [gmap Z], where a missing key reads as [undefined].
    - A handler is a computation in the monad [M]: it reads and updates the
      room and appends to the log of calls it makes on sockets.  A frame in
      the log is the object handed to [JSON.stringify].
    - [JSON.parse] and [String.prototype.toLowerCase] belong to the host;
      they are section variables, so every theorem holds for the real ones. *)

From Stdlib Require Import ZArith List String Ascii Bool Lia.
From Stdlib Require Import Floats.SpecFloat.
From Stdlib Require Import Sorting.Sorted.
From stdpp Require Import gmap list.

Open Scope Z_scope.

(** ** JavaScript values *)

Abbreviation jsstring := (list N).

(** An ASCII literal of the source as a sequence of code units. *)
Definition lit (s : string) : jsstring :=
  map N_of_ascii (list_ascii_of_string s).

(** [Number(z)] for an integer [z]: the double nearest to it. *)
Definition num (z : Z) : spec_float := binary_normalize 53 1024 z 0 false.

#[warnings="-register-all"]
Inductive jsval : Type :=
| JUndefined
| JNull
| JBool (b : bool)
| JNum (n : spec_float)
| JStr (s : jsstring)
| JArr (elems : list jsval)
| JObj (props : list (jsstring * jsval)).

(** Own data property [k] of an object literal or of an object built by
    [JSON.parse]; [undefined] when there is none. *)
Fixpoint own_prop (props : list (jsstring * jsval)) (k : jsstring) : jsval :=
  match props with
  | [] => JUndefined
  | (k', v) :: rest => if decide (k' = k) then v else own_prop rest k
  end.

(** [v.k] for the property names the handlers read ([t], [name], [c], [i],
    [s], [st], [slot]): none of them is defined on a prototype, so a
    primitive or an array answers [undefined].  [None] is the [TypeError]
    of reading a property of [null] or [undefined]. *)
Definition get (v : jsval) (k : jsstring) : option jsval :=
  match v with
  | JUndefined | JNull => None
  | JObj props => Some (own_prop props k)
  | _ => Some JUndefined
  end.

(** [v.k] once an earlier read of the same [v] has not thrown. *)
Definition read (v : jsval) (k : jsstring) : jsval :=
  match get v k with Some x => x | None => JUndefined end.

(** [v === s] for a string literal [s]. *)
Definition strict_eq_str (v : jsval) (s : jsstring) : bool :=
  match v with
  | JStr s' => bool_decide (s' = s)
  | _ => false
  end.

(** [typeof v === "number"]. *)
Definition is_number (v : jsval) : bool :=
  match v with JNum _ => true | _ => false end.

(** [v ?? null]. *)
Definition nullish_or_null (v : jsval) : jsval :=
  match v with
  | JUndefined | JNull => JNull
  | _ => v
  end.

(** The properties [JSON.stringify] writes for an object: those whose value
    is not [undefined], in insertion order. *)
Definition stringified_props (v : jsval) : list (jsstring * jsval) :=
  match v with
  | JObj props =>
      List.filter (fun p => match snd p with JUndefined => false | _ => true end) props
  | _ => []
  end.

(** ** [Map] keyed by seat index *)

Module JsMap.
Section WithValue.
Context {V : Type}.

Definition has (m : list (Z * V)) (k : Z) : bool :=
  existsb (fun e => fst e =? k) m.

Fixpoint get (m : list (Z * V)) (k : Z) : option V :=
  match m with
  | [] => None
  | (k', v) :: rest => if k' =? k then Some v else get rest k
  end.

(** [m.set(k, v)]: an existing key keeps its place, a new one goes last. *)
Fixpoint set (m : list (Z * V)) (k : Z) (v : V) : list (Z * V) :=
  match m with
  | [] => [(k, v)]
  | (k', v') :: rest =>
      if k' =? k then (k, v) :: rest else (k', v') :: set rest k v
  end.

Definition delete (m : list (Z * V)) (k : Z) : list (Z * V) :=
  List.filter (fun e => negb (fst e =? k)) m.

Definition values (m : list (Z * V)) : list V := map snd m.

Definition keys (m : list (Z * V)) : list Z := map fst m.

Definition size (m : list (Z * V)) : nat := length m.
End WithValue.
End JsMap.

(** ** The room *)

(** A WebSocket object, by identity. *)
Abbreviation WebSocket := nat.

(** The metadata object [{ slot }] attached to a socket. Its [slot] is a
    number by construction, so [typeof meta.slot !== "number"] is false
    whenever [meta] is there. *)
Record Meta : Type := { slot : Z }.

Record Room : Type := {
  sockets : list (Z * WebSocket);   (* this.sockets: slot -> WebSocket *)
  names : gmap Z jsstring;          (* this.names:   slot -> name *)
  state : gmap WebSocket Meta;      (* this.state: sockets accepted with their metadata *)
  fresh : WebSocket                 (* identity of the next object created *)
}.

(** [constructor(state, env)], on a state that holds no socket yet. *)
Definition new_Room : Room :=
  {| sockets := [];
     names := <[3 := []]> (<[2 := []]> (<[1 := []]> (<[0 := []]> ∅)));
     state := ∅;
     fresh := 0%nat |}.

(** What a handler does to a socket, or an exception that leaves it. *)
Inductive effect : Type :=
| Accept (w : WebSocket)
| Send (w : WebSocket) (frame : jsval)
| Close (w : WebSocket) (code : Z) (reason : jsstring)
| Uncaught_TypeError.

(** ** The handler monad: room state and log of effects *)

Definition M (A : Type) : Type := Room -> A * Room * list effect.

#[global] Instance M_ret : MRet M := fun A (x : A) r => (x, r, []).

#[global] Instance M_bind : MBind M := fun A B (f : A -> M B) (c : M A) r =>
  let p := c r in
  let q := f (fst (fst p)) (snd (fst p)) in
  (fst (fst q), snd (fst q), snd p ++ snd q).

Definition gets {A : Type} (f : Room -> A) : M A := fun r => (f r, r, []).

Definition modify (f : Room -> Room) : M unit := fun r => (tt, f r, []).

Definition emit (e : effect) : M unit := fun r => (tt, r, [e]).

Fixpoint for_each {A : Type} (l : list A) (body : A -> M unit) : M unit :=
  match l with
  | [] => mret tt
  | x :: rest => body x ;; for_each rest body
  end.

Definition room_after {A : Type} (c : M A) (r : Room) : Room := snd (fst (c r)).
Definition log_of {A : Type} (c : M A) (r : Room) : list effect := snd (c r).
Definition result_of {A : Type} (c : M A) (r : Room) : A := fst (fst (c r)).

(** ** Primitive operations of the handlers *)

(** [new WebSocketPair()]: two new sockets, [pair[0]] and [pair[1]]. *)
Definition new_WebSocketPair : M (WebSocket * WebSocket) := fun r =>
  ((fresh r, S (fresh r)),
   {| sockets := sockets r; names := names r; state := state r;
      fresh := S (S (fresh r)) |},
   []).

(** [this.state.acceptWebSocket(server, meta)]. *)
Definition acceptWebSocket (w : WebSocket) (meta : Meta) : M unit :=
  modify (fun r =>
    {| sockets := sockets r; names := names r;
       state := <[w := meta]> (state r); fresh := fresh r |}).

(** [this.state.getWebSocketMetadata(ws)]; [None] when there is none. *)
Definition getWebSocketMetadata (w : WebSocket) : M (option Meta) :=
  gets (fun r => state r !! w).

(** [this.sockets.set(slot, ws)]. *)
Definition sockets_set (k : Z) (w : WebSocket) : M unit :=
  modify (fun r =>
    {| sockets := JsMap.set (sockets r) k w; names := names r;
       state := state r; fresh := fresh r |}).

(** [this.sockets.delete(slot)]. *)
Definition sockets_delete (k : Z) : M unit :=
  modify (fun r =>
    {| sockets := JsMap.delete (sockets r) k; names := names r;
       state := state r; fresh := fresh r |}).

(** [this.names[slot] = name]. *)
Definition names_write (k : Z) (name : jsstring) : M unit :=
  modify (fun r =>
    {| sockets := sockets r; names := <[k := name]> (names r);
       state := state r; fresh := fresh r |}).

(** [this.names[slot]] as a value: [undefined] off the array. *)
Definition names_read (r : Room) (k : Z) : jsval :=
  match names r !! k with
  | Some s => JStr s
  | None => JUndefined
  end.

(** [this.names[i]] or, when that is falsy ([undefined] or the empty
    string), the empty string. *)
Definition names_or_empty (r : Room) (k : Z) : jsstring :=
  match names r !! k with
  | Some s => s
  | None => []
  end.

(** [ws.send(JSON.stringify(obj))]: the log records the call.  Outside a
    [try] the handlers call it on the socket just accepted or on the one
    whose message is being handled, where it is taken not to throw. *)
Definition send (w : WebSocket) (obj : jsval) : M unit := emit (Send w obj).

(** ** Frames, as the object literals of the source *)

Definition frame_err (code msg : string) : jsval :=
  JObj [(lit "t", JStr (lit "err")); (lit "code", JStr (lit code));
        (lit "msg", JStr (lit msg))].

Definition frame_welcome (k : Z) (players : list jsval) : jsval :=
  JObj [(lit "t", JStr (lit "welcome")); (lit "slot", JNum (num k));
        (lit "players", JArr players)].

Definition frame_join (k : Z) (name : jsval) : jsval :=
  JObj [(lit "t", JStr (lit "join")); (lit "slot", JNum (num k));
        (lit "name", name)].

Definition frame_presence (players : list jsval) : jsval :=
  JObj [(lit "t", JStr (lit "presence")); (lit "players", JArr players)].

Definition frame_pong (c : jsval) : jsval :=
  JObj [(lit "t", JStr (lit "pong")); (lit "c", c)].

Definition frame_leave (k : Z) : jsval :=
  JObj [(lit "t", JStr (lit "leave")); (lit "slot", JNum (num k))].

(** [{ slot: i, name }], an entry of the presence listing. *)
Definition player (k : Z) (name : jsstring) : jsval :=
  JObj [(lit "slot", JNum (num k)); (lit "name", JStr name)].

(** [if (typeof data.s === "number") payload.s = data.s]. *)
Definition with_s (payload : list (jsstring * jsval)) (data : jsval) : jsval :=
  if is_number (read data (lit "s"))
  then JObj (payload ++ [(lit "s", read data (lit "s"))])
  else JObj payload.

Definition payload_in (k : Z) (data : jsval) : jsval :=
  with_s [(lit "t", JStr (lit "in")); (lit "slot", JNum (num k));
          (lit "i", nullish_or_null (read data (lit "i")))] data.

Definition payload_snap (data : jsval) : jsval :=
  with_s [(lit "t", JStr (lit "snap"));
          (lit "st", nullish_or_null (read data (lit "st")))] data.

(** ** Seat allocation, presence listing, broadcast *)

(** The loop [for (let i = ...; i < 4; i++) if (!this.sockets.has(i)) return i]
    with [n] iterations left, then [return -1]. *)
Fixpoint allocSlot_from (n : nat) (i : Z) (m : list (Z * WebSocket)) : Z :=
  match n with
  | O => -1
  | S n' => if negb (JsMap.has m i) then i else allocSlot_from n' (i + 1) m
  end.

Definition _allocSlot (r : Room) : Z := allocSlot_from 4 0 (sockets r).

(** The loop of [_playersList] with [n] iterations left. *)
Fixpoint playersList_from (n : nat) (i : Z) (r : Room) : list jsval :=
  match n with
  | O => []
  | S n' =>
      (if JsMap.has (sockets r) i then [player i (names_or_empty r i)] else [])
      ++ playersList_from n' (i + 1) r
  end.

Definition _playersList (r : Room) : list jsval := playersList_from 4 0 r.

(** A [send] that throws inside the loop is swallowed by its [try]; the
    loop goes on, so the calls made are the same either way. *)
Definition _broadcastAll (obj : jsval) : M unit :=
  r ← gets sockets;
  for_each (JsMap.values r) (fun w => send w obj).

Definition _broadcastExcept (exceptSlot : Z) (obj : jsval) : M unit :=
  r ← gets sockets;
  for_each r (fun e => if fst e =? exceptSlot then mret tt else send (snd e) obj).

(** ** The handlers *)

(** Of the upgrade request, [fetch] reads [request.headers.get("Upgrade")]:
    a string, or [null] when the header is missing. *)
Record Request : Type := { Upgrade : option jsstring }.

Record Response : Type := {
  status : Z;
  body : option jsstring;
  webSocket : option WebSocket
}.

(** A WebSocket message: a string, or an [ArrayBuffer] of bytes. *)
Inductive Message : Type :=
| Text (s : jsstring)
| Binary (bytes : list N).

(** The string [JSON.parse] is given: [ToString(message)]. *)
Definition Message_toString (m : Message) : jsstring :=
  match m with
  | Text s => s
  | Binary _ => lit "[object ArrayBuffer]"
  end.

Inductive event : Type :=
| EFetch (request : Request)
| EMessage (w : WebSocket) (message : Message)
| EClose (w : WebSocket)
| EError (w : WebSocket).

(** ** Sample inputs

    An instance of the two host functions, and the events and messages the
    examples below run the handlers on. *)

(** [toLowerCase] on ASCII text. *)
Definition ascii_toLowerCase (s : jsstring) : jsstring :=
  map (fun c => if ((65 <=? c) && (c <=? 90))%N then (c + 32)%N else c) s.

(** A JSON string literal: the text between two quotation marks (code 34). *)
Definition quoted (s : string) : jsstring := 34%N :: lit s ++ [34%N].

(** The text of [{ k1: v1 }] and of [{ k1: v1, k2: v2 }], given the texts of
    the values. *)
Definition text_obj1 (k1 : string) (v1 : jsstring) : jsstring :=
  lit "{" ++ quoted k1 ++ lit ":" ++ v1 ++ lit "}".

Definition text_obj2 (k1 : string) (v1 : jsstring) (k2 : string) (v2 : jsstring)
  : jsstring :=
  lit "{" ++ quoted k1 ++ lit ":" ++ v1 ++ lit "," ++ quoted k2 ++ lit ":" ++ v2
  ++ lit "}".

Definition text_join_Al : jsstring :=
  text_obj2 "t" (quoted "join") "name" (quoted "Al").
Definition text_in_bare : jsstring := text_obj1 "t" (quoted "in").
Definition text_snap_bare : jsstring := text_obj1 "t" (quoted "snap").
Definition text_snap_st : jsstring :=
  text_obj2 "t" (quoted "snap") "st" (lit "7").
Definition text_malformed : jsstring := lit "{".

(** [JSON.parse] on the texts above; every other text is taken as
    malformed, which is all the examples need of it. *)
Definition sample_parse (s : jsstring) : option jsval :=
  if decide (s = text_join_Al) then
    Some (JObj [(lit "t", JStr (lit "join")); (lit "name", JStr (lit "Al"))])
  else if decide (s = text_in_bare) then
    Some (JObj [(lit "t", JStr (lit "in"))])
  else if decide (s = text_snap_bare) then
    Some (JObj [(lit "t", JStr (lit "snap"))])
  else if decide (s = text_snap_st) then
    Some (JObj [(lit "t", JStr (lit "snap")); (lit "st", JNum (num 7))])
  else None.

(** A request with [Upgrade: WebSocket]. *)
Definition upgrade_request : Request := {| Upgrade := Some (lit "WebSocket") |}.

(** Two and four admissions into a new room: the servers are sockets
    1, 3, 5, 7 and take seats 0, 1, 2, 3. *)
Definition two_admissions : list event :=
  [EFetch upgrade_request; EFetch upgrade_request].

Definition four_admissions : list event :=
  two_admissions ++ two_admissions.

Definition text_ping_42 : jsstring :=
  text_obj2 "t" (quoted "ping") "c" (lit "42").
Definition text_ping_bare : jsstring := text_obj1 "t" (quoted "ping").
Definition text_chat : jsstring := text_obj1 "t" (quoted "chat").
Definition text_null : jsstring := lit "null".
Definition text_7 : jsstring := lit "7".

(** [JSON.parse] on these texts as well. *)
Definition sample_parse_more (s : jsstring) : option jsval :=
  if decide (s = text_ping_42) then
    Some (JObj [(lit "t", JStr (lit "ping")); (lit "c", JNum (num 42))])
  else if decide (s = text_ping_bare) then
    Some (JObj [(lit "t", JStr (lit "ping"))])
  else if decide (s = text_chat) then
    Some (JObj [(lit "t", JStr (lit "chat"))])
  else if decide (s = text_null) then Some JNull
  else if decide (s = text_7) then Some (JNum (num 7))
  else sample_parse s.

(** A request without an [Upgrade] header. *)
Definition plain_request : Request := {| Upgrade := None |}.

Section Handlers.

(** [String.prototype.toLowerCase]. *)
Variable toLowerCase : jsstring -> jsstring.

(** [JSON.parse]; [None] when it throws a [SyntaxError]. *)
Variable JSON_parse : jsstring -> option jsval.

(** [!upgrade || upgrade.toLowerCase() !== "websocket"]. *)
Definition not_websocket (upgrade : option jsstring) : bool :=
  match upgrade with
  | None => true
  | Some [] => true
  | Some u => negb (bool_decide (toLowerCase u = lit "websocket"))
  end.

Definition fetch (request : Request) : M Response :=
  let upgrade := Upgrade request in
  if not_websocket upgrade then
    mret {| status := 426; body := Some (lit "Expected websocket");
            webSocket := None |}
  else
    pair ← new_WebSocketPair;
    let client := fst pair in
    let server := snd pair in
    emit (Accept server);;
    slot ← gets _allocSlot;
    if slot =? -1 then
      send server (frame_err "ROOM_FULL" "Room full (max 4).");;
      emit (Close server 1008 (lit "room full"));;
      mret {| status := 101; body := None; webSocket := Some client |}
    else
      let meta := {| slot := slot |} in
      acceptWebSocket server meta;;
      sockets_set slot server;;
      players ← gets _playersList;
      send server (frame_welcome slot players);;
      name ← gets (fun r => names_read r slot);
      _broadcastExcept slot (frame_join slot name);;
      mret {| status := 101; body := None; webSocket := Some client |}.

Definition webSocketMessage (w : WebSocket) (message : Message) : M unit :=
  meta ← getWebSocketMetadata w;
  match meta with
  | None => mret tt
  | Some meta =>
      let slot := slot meta in
      match JSON_parse (Message_toString message) with
      | None => send w (frame_err "BAD_JSON" "Invalid JSON")
      | Some data =>
          match get data (lit "t") with
          | None => emit Uncaught_TypeError
          | Some t =>
              if strict_eq_str t (lit "join") then
                let name :=
                  match read data (lit "name") with
                  | JStr s => take 24 s
                  | _ => []
                  end in
                names_write slot name;;
                _broadcastAll (frame_join slot (JStr name));;
                players ← gets _playersList;
                send w (frame_presence players)
              else if strict_eq_str t (lit "ping") then
                send w (frame_pong (read data (lit "c")))
              else if strict_eq_str t (lit "in") then
                _broadcastExcept slot (payload_in slot data)
              else if strict_eq_str t (lit "snap") then
                _broadcastExcept slot (payload_snap data)
              else mret tt
          end
      end
  end.

Definition webSocketClose (w : WebSocket) : M unit :=
  meta ← getWebSocketMetadata w;
  match meta with
  | None => mret tt
  | Some meta =>
      let slot := slot meta in
      sockets_delete slot;;
      names_write slot [];;
      _broadcastAll (frame_leave slot);;
      players ← gets _playersList;
      _broadcastAll (frame_presence players)
  end.

Definition webSocketError (w : WebSocket) : M unit := webSocketClose w.

(** ** Runs of a room *)

Definition handle (e : event) : M unit :=
  match e with
  | EFetch request => fetch request ;; mret tt
  | EMessage w message => webSocketMessage w message
  | EClose w => webSocketClose w
  | EError w => webSocketError w
  end.

(** The room after the events [evs], handled one after the other. *)
Definition run (evs : list event) (r : Room) : Room :=
  fold_left (fun r e => room_after (handle e) r) evs r.

(** Every state a room can be in: any events, in any order. *)
Definition reachable (r : Room) : Prop :=
  exists evs, run evs new_Room = r.

(** The transport delivers nothing for a socket after its close or error.
    [closed] lists the sockets closed so far. *)
Definition deliverable (closed : list WebSocket) (e : event) : bool :=
  match e with
  | EFetch _ => true
  | EMessage w _ | EClose w | EError w => negb (existsb (Nat.eqb w) closed)
  end.

Definition closed_after (closed : list WebSocket) (e : event)
  : list WebSocket :=
  match e with
  | EClose w | EError w => w :: closed
  | _ => closed
  end.

Fixpoint orderly_from (closed : list WebSocket) (evs : list event) : bool :=
  match evs with
  | [] => true
  | e :: rest =>
      deliverable closed e && orderly_from (closed_after closed e) rest
  end.

Definition orderly (evs : list event) : bool := orderly_from [] evs.

(** The states a room is in when every session is closed at most once and
    sends nothing after that. *)
Definition reachable_orderly (r : Room) : Prop :=
  exists evs, orderly evs = true /\ run evs new_Room = r.

(** ** Notions of the specification *)

(** Seat [k] is occupied. *)
Definition occupied (r : Room) (k : Z) : Prop :=
  JsMap.has (sockets r) k = true.

(** The number of occupied seats. *)
Definition occupied_seats (r : Room) : nat := JsMap.size (sockets r).

(** [w] is the open session of seat [k]: it sits at [k] in the seat map
    and its metadata binds it to [k]. *)
Definition session_at (r : Room) (w : WebSocket) (k : Z) : Prop :=
  JsMap.get (sockets r) k = Some w /\ state r !! w = Some {| slot := k |}.

(** The frames sent to socket [w] in a log, in order. *)
Definition sent_to (w : WebSocket) (out : list effect) : list jsval :=
  flat_map (fun e =>
    match e with
    | Send w' f => if Nat.eqb w' w then [f] else []
    | _ => []
    end) out.


(** The frame has seat [k] as its [slot] field. *)
Definition carries_slot (frame : jsval) (k : Z) : Prop :=
  get frame (lit "slot") = Some (JNum (num k)).

(** The name a [join] message asks for: [data.name] cut to 24 code units
    when it is a string, the empty string otherwise. *)
Definition join_name (data : jsval) : jsstring :=
  match read data (lit "name") with
  | JStr s => take 24 s
  | _ => []
  end.

(** The sockets closed once the events [evs] are handled, [closed] being
    the ones closed before. *)
Fixpoint closed_by (closed : list WebSocket) (evs : list event)
  : list WebSocket :=
  match evs with
  | [] => closed
  | e :: rest => closed_by (closed_after closed e) rest
  end.

(** ** The worker's front door *)

(** Of a request the worker reads the path and the [room] parameter of its
    URL; the request it hands on to the room is [to_room]. *)
Record HttpRequest : Type := {
  pathname : jsstring;
  searchParams_room : option jsstring;
  to_room : Request
}.

Inductive HttpBody : Type :=
| NoBody
| TextBody (s : jsstring)
| JsonBody (v : jsval).

(** A response as [new Response(body, init)] is given it: the body
    ([JsonBody v] for [JSON.stringify(v)]), the status of [init] or 200, the
    headers of [init] and its [webSocket]. *)
Record HttpResponse : Type := {
  http_status : Z;
  http_body : HttpBody;
  http_headers : list (jsstring * jsstring);
  http_webSocket : option WebSocket
}.

(** The response of a room, passed on as it is. *)
Definition of_Response (response : Response) : HttpResponse :=
  {| http_status := status response;
     http_body := match body response with
                  | Some s => TextBody s
                  | None => NoBody
                  end;
     http_headers := [];
     http_webSocket := webSocket response |}.

(** [env.ROOM.get(env.ROOM.idFromName(roomId))]: the one instance of that
    name, constructed when it is first used. [rooms] holds the instances
    constructed so far. *)
Definition instance (rooms : gmap (list N) Room) (roomId : jsstring) : Room :=
  match rooms !! roomId with
  | Some r => r
  | None => new_Room
  end.

(** [url.searchParams.get("room") || "lobby"]: [null] and the empty string
    are falsy. *)
Definition roomId_of (request : HttpRequest) : jsstring :=
  match searchParams_room request with
  | Some (c :: s) => c :: s
  | _ => lit "lobby"
  end.

(** The default export's [fetch(request, env)], with [now] the value of
    [Date.now()].  The log names the room of each effect. *)
Definition worker_fetch (now : Z) (request : HttpRequest)
    (rooms : gmap (list N) Room)
  : HttpResponse * gmap (list N) Room * list (jsstring * effect) :=
  if bool_decide (pathname request = lit "/health") then
    ({| http_status := 200;
        http_body := JsonBody (JObj [(lit "ok", JBool true);
                                     (lit "ts", JNum (num now))]);
        http_headers := [(lit "content-type", lit "application/json")];
        http_webSocket := None |}, rooms, [])
  else if bool_decide (pathname request = lit "/ws") then
    let roomId := roomId_of request in
    let res := fetch (to_room request) (instance rooms roomId) in
    (of_Response (fst (fst res)), <[roomId := snd (fst res)]> rooms,
     map (fun x => (roomId, x)) (snd res))
  else
    ({| http_status := 404; http_body := TextBody (lit "Not found");
        http_headers := []; http_webSocket := None |}, rooms, []).

(** What reaches the rooms: a request through the worker, or an event of a
    socket, which the runtime delivers to the room that accepted it. *)
Inductive world_event : Type :=
| WFetch (now : Z) (request : HttpRequest)
| WMessage (roomId : jsstring) (w : WebSocket) (message : Message)
| WClose (roomId : jsstring) (w : WebSocket)
| WError (roomId : jsstring) (w : WebSocket).

Definition deliver (roomId : jsstring) (e : event) (rooms : gmap (list N) Room)
  : gmap (list N) Room :=
  <[roomId := room_after (handle e) (instance rooms roomId)]> rooms.

Definition world_handle (ev : world_event) (rooms : gmap (list N) Room)
  : gmap (list N) Room :=
  match ev with
  | WFetch now request => snd (fst (worker_fetch now request rooms))
  | WMessage roomId w message => deliver roomId (EMessage w message) rooms
  | WClose roomId w => deliver roomId (EClose w) rooms
  | WError roomId w => deliver roomId (EError w) rooms
  end.

Definition world_run (evs : list world_event) (rooms : gmap (list N) Room)
  : gmap (list N) Room :=
  fold_left (fun rooms ev => world_handle ev rooms) evs rooms.

(** The events of [evs] that are for the room named [roomId]. *)
Definition events_of (roomId : jsstring) (evs : list world_event) : list event :=
  flat_map (fun ev =>
    match ev with
    | WFetch _ request =>
        if bool_decide (pathname request = lit "/ws"
                        /\ roomId_of request = roomId)
        then [EFetch (to_room request)] else []
    | WMessage id w message =>
        if bool_decide (id = roomId) then [EMessage w message] else []
    | WClose id w => if bool_decide (id = roomId) then [EClose w] else []
    | WError id w => if bool_decide (id = roomId) then [EError w] else []
    end) evs.

(** An upgrade request to the worker's [/ws], with the given [room]
    parameter. *)
Definition ws_request (room : option jsstring) : HttpRequest :=
  {| pathname := lit "/ws"; searchParams_room := room;
     to_room := upgrade_request |}.

(** ** Invariants of a room *)

(** The ways a handler changes the room: not at all; a rejected upgrade
    that only created its socket pair; an admission into seat [k]; a name
    written for the seat of a bound socket; the seat of a bound socket
    vacated. *)
Inductive moves (r : Room) : event -> Room -> Prop :=
| moves_none (e : event) : moves r e r
| moves_reject (request : Request) :
    moves r (EFetch request)
      {| sockets := sockets r; names := names r; state := state r;
         fresh := S (S (fresh r)) |}
| moves_admit (request : Request) (k : Z) :
    0 <= k < 4 ->
    JsMap.has (sockets r) k = false ->
    moves r (EFetch request)
      {| sockets := sockets r ++ [(k, S (fresh r))]; names := names r;
         state := <[S (fresh r) := {| slot := k |}]> (state r);
         fresh := S (S (fresh r)) |}
| moves_rename (w : WebSocket) (message : Message) (meta : Meta)
    (name : jsstring) :
    state r !! w = Some meta ->
    (length name <= 24)%nat ->
    moves r (EMessage w message)
      {| sockets := sockets r; names := <[slot meta := name]> (names r);
         state := state r; fresh := fresh r |}
| moves_vacate (e : event) (w : WebSocket) (meta : Meta) :
    e = EClose w \/ e = EError w ->
    state r !! w = Some meta ->
    moves r e
      {| sockets := JsMap.delete (sockets r) (slot meta);
         names := <[slot meta := []]> (names r);
         state := state r; fresh := fresh r |}.

(** What holds of the room after any events. *)
Record consistent (r : Room) : Prop := {
  seat_entry : forall k w, In (k, w) (sockets r) ->
    0 <= k < 4 /\ (w < fresh r)%nat /\ state r !! w = Some {| slot := k |};
  seat_keys : List.NoDup (JsMap.keys (sockets r));
  seat_sockets : List.NoDup (JsMap.values (sockets r));
  meta_entry : forall w meta, state r !! w = Some meta ->
    (w < fresh r)%nat /\ 0 <= slot meta < 4;
  name_entry : forall k s, names r !! k = Some s ->
    0 <= k < 4 /\ (length s <= 24)%nat;
  name_defined : forall k, 0 <= k < 4 -> is_Some (names r !! k)
}.

(** What holds in addition when the sockets of [closed] are the ones closed
    so far and nothing was delivered for them since: every other bound
    socket holds its seat, and a vacant seat has the empty name. *)
Record settled (closed : list WebSocket) (r : Room) : Prop := {
  live_seat : forall w meta, state r !! w = Some meta ->
    ~ In w closed -> JsMap.get (sockets r) (slot meta) = Some w;
  vacant_name : forall k, 0 <= k < 4 ->
    JsMap.has (sockets r) k = false -> names r !! k = Some []
}.

(** ** Running the monad *)

Lemma bind_run {A B : Type} (c : M A) (f : A -> M B) (r : Room)
    (x : A) (r1 : Room) (out1 : list effect)
    (y : B) (r2 : Room) (out2 : list effect) :
  c r = (x, r1, out1) ->
  f x r1 = (y, r2, out2) ->
  (c ≫= f) r = (y, r2, out1 ++ out2).
Proof.
  intros Hc Hf. unfold mbind, M_bind. cbv zeta. rewrite Hc. cbn [fst snd].
  rewrite Hf. reflexivity.
Qed.

Lemma for_each_send (l : list WebSocket) (obj : jsval) (r : Room) :
  for_each l (fun w => send w obj) r = (tt, r, map (fun w => Send w obj) l).
Proof.
  induction l as [|w l IH]; [reflexivity|].
  cbn [for_each]. unfold mbind, M_bind. cbn [send emit fst snd].
  rewrite IH. reflexivity.
Qed.

Lemma broadcastAll_run (obj : jsval) (r : Room) :
  _broadcastAll obj r
  = (tt, r, map (fun w => Send w obj) (JsMap.values (sockets r))).
Proof.
  unfold _broadcastAll, mbind, M_bind, gets. cbn.
  rewrite for_each_send. reflexivity.
Qed.

Lemma for_each_except (l : list (Z * WebSocket)) (k : Z) (obj : jsval) (r : Room) :
  for_each l (fun e => if fst e =? k then mret tt else send (snd e) obj) r
  = (tt, r, map (fun w => Send w obj) (JsMap.values (JsMap.delete l k))).
Proof.
  induction l as [|[k' w] l IH]; [reflexivity|].
  cbn [for_each]. unfold mbind, M_bind. cbn [fst snd].
  destruct (k' =? k) eqn:E; cbn [send emit mret M_ret fst snd];
    rewrite IH; cbn; rewrite E; reflexivity.
Qed.

(** [_broadcastExcept] sends to the sockets of every seat but [k]. *)
Lemma broadcastExcept_run (k : Z) (obj : jsval) (r : Room) :
  _broadcastExcept k obj r
  = (tt, r,
     map (fun w => Send w obj) (JsMap.values (JsMap.delete (sockets r) k))).
Proof.
  unfold _broadcastExcept, mbind, M_bind, gets. cbn.
  rewrite for_each_except. reflexivity.
Qed.

Lemma webSocketClose_run (w : WebSocket) (meta : Meta) (r : Room) :
  state r !! w = Some meta ->
  let r' := {| sockets := JsMap.delete (sockets r) (slot meta);
               names := <[slot meta := []]> (names r);
               state := state r; fresh := fresh r |} in
  webSocketClose w r
  = (tt, r',
     map (fun w' => Send w' (frame_leave (slot meta))) (JsMap.values (sockets r'))
     ++ map (fun w' => Send w' (frame_presence (_playersList r')))
            (JsMap.values (sockets r'))).
Proof.
  intros Hmeta r'.
  unfold webSocketClose, getWebSocketMetadata, mbind, M_bind, gets.
  cbn [fst snd]. rewrite Hmeta.
  unfold sockets_delete, names_write, modify. cbn [fst snd].
  rewrite !broadcastAll_run. cbn [fst snd sockets app]. reflexivity.
Qed.

Lemma webSocketClose_unbound (w : WebSocket) (r : Room) :
  state r !! w = None -> webSocketClose w r = (tt, r, []).
Proof.
  intros Hmeta.
  unfold webSocketClose, getWebSocketMetadata, mbind, M_bind, gets.
  cbn [fst snd]. rewrite Hmeta. reflexivity.
Qed.

Lemma webSocketMessage_unbound (w : WebSocket) (message : Message) (r : Room) :
  state r !! w = None -> webSocketMessage w message r = (tt, r, []).
Proof.
  intros Hmeta.
  unfold webSocketMessage, getWebSocketMetadata, mbind, M_bind, gets.
  cbn [fst snd]. rewrite Hmeta. reflexivity.
Qed.

Lemma webSocketMessage_bad_json (w : WebSocket) (meta : Meta)
    (message : Message) (r : Room) :
  state r !! w = Some meta ->
  JSON_parse (Message_toString message) = None ->
  webSocketMessage w message r
  = (tt, r, [Send w (frame_err "BAD_JSON" "Invalid JSON")]).
Proof.
  intros Hmeta Hparse.
  unfold webSocketMessage, getWebSocketMetadata, mbind, M_bind, gets.
  cbn [fst snd]. rewrite Hmeta, Hparse. reflexivity.
Qed.

Lemma webSocketMessage_null (w : WebSocket) (meta : Meta)
    (message : Message) (data : jsval) (r : Room) :
  state r !! w = Some meta ->
  JSON_parse (Message_toString message) = Some data ->
  get data (lit "t") = None ->
  webSocketMessage w message r = (tt, r, [Uncaught_TypeError]).
Proof.
  intros Hmeta Hparse Ht.
  unfold webSocketMessage, getWebSocketMetadata, mbind, M_bind, gets.
  cbn [fst snd]. rewrite Hmeta, Hparse, Ht. reflexivity.
Qed.

(** The name a [join] message sets. *)
Lemma webSocketMessage_join (w : WebSocket) (meta : Meta)
    (message : Message) (data : jsval) (r : Room) :
  state r !! w = Some meta ->
  JSON_parse (Message_toString message) = Some data ->
  get data (lit "t") = Some (JStr (lit "join")) ->
  let name := match read data (lit "name") with
              | JStr s => take 24 s
              | _ => []
              end in
  let r' := {| sockets := sockets r;
               names := <[slot meta := name]> (names r);
               state := state r; fresh := fresh r |} in
  webSocketMessage w message r
  = (tt, r',
     map (fun w' => Send w' (frame_join (slot meta) (JStr name)))
         (JsMap.values (sockets r))
     ++ [Send w (frame_presence (_playersList r'))]).
Proof.
  intros Hmeta Hparse Ht name r'.
  unfold webSocketMessage, getWebSocketMetadata, mbind, M_bind, gets.
  cbn [fst snd]. rewrite Hmeta, Hparse, Ht.
  change (strict_eq_str (JStr (lit "join")) (lit "join")) with true.
  cbv iota. unfold names_write, modify. cbn [fst snd].
  rewrite broadcastAll_run. cbn [fst snd sockets send emit app].
  reflexivity.
Qed.

Lemma webSocketMessage_ping (w : WebSocket) (meta : Meta)
    (message : Message) (data : jsval) (r : Room) :
  state r !! w = Some meta ->
  JSON_parse (Message_toString message) = Some data ->
  get data (lit "t") = Some (JStr (lit "ping")) ->
  webSocketMessage w message r
  = (tt, r, [Send w (frame_pong (read data (lit "c")))]).
Proof.
  intros Hmeta Hparse Ht.
  unfold webSocketMessage, getWebSocketMetadata, mbind, M_bind, gets.
  cbn [fst snd]. rewrite Hmeta, Hparse, Ht.
  change (strict_eq_str (JStr (lit "ping")) (lit "join")) with false.
  change (strict_eq_str (JStr (lit "ping")) (lit "ping")) with true.
  reflexivity.
Qed.

Lemma webSocketMessage_in (w : WebSocket) (meta : Meta)
    (message : Message) (data : jsval) (r : Room) :
  state r !! w = Some meta ->
  JSON_parse (Message_toString message) = Some data ->
  get data (lit "t") = Some (JStr (lit "in")) ->
  webSocketMessage w message r
  = (tt, r,
     map (fun w' => Send w' (payload_in (slot meta) data))
         (JsMap.values (JsMap.delete (sockets r) (slot meta)))).
Proof.
  intros Hmeta Hparse Ht.
  unfold webSocketMessage, getWebSocketMetadata, mbind, M_bind, gets.
  cbn [fst snd]. rewrite Hmeta, Hparse, Ht.
  change (strict_eq_str (JStr (lit "in")) (lit "join")) with false.
  change (strict_eq_str (JStr (lit "in")) (lit "ping")) with false.
  change (strict_eq_str (JStr (lit "in")) (lit "in")) with true.
  cbv iota. rewrite broadcastExcept_run. reflexivity.
Qed.

Lemma webSocketMessage_snap (w : WebSocket) (meta : Meta)
    (message : Message) (data : jsval) (r : Room) :
  state r !! w = Some meta ->
  JSON_parse (Message_toString message) = Some data ->
  get data (lit "t") = Some (JStr (lit "snap")) ->
  webSocketMessage w message r
  = (tt, r,
     map (fun w' => Send w' (payload_snap data))
         (JsMap.values (JsMap.delete (sockets r) (slot meta)))).
Proof.
  intros Hmeta Hparse Ht.
  unfold webSocketMessage, getWebSocketMetadata, mbind, M_bind, gets.
  cbn [fst snd]. rewrite Hmeta, Hparse, Ht.
  change (strict_eq_str (JStr (lit "snap")) (lit "join")) with false.
  change (strict_eq_str (JStr (lit "snap")) (lit "ping")) with false.
  change (strict_eq_str (JStr (lit "snap")) (lit "in")) with false.
  change (strict_eq_str (JStr (lit "snap")) (lit "snap")) with true.
  cbv iota. rewrite broadcastExcept_run. reflexivity.
Qed.

Lemma fetch_not_websocket (request : Request) (r : Room) :
  not_websocket (Upgrade request) = true ->
  fetch request r
  = ({| status := 426; body := Some (lit "Expected websocket");
        webSocket := None |}, r, []).
Proof. intros H. unfold fetch. rewrite H. reflexivity. Qed.

Lemma fetch_room_full (request : Request) (r : Room) :
  not_websocket (Upgrade request) = false ->
  _allocSlot r = -1 ->
  fetch request r
  = ({| status := 101; body := None; webSocket := Some (fresh r) |},
     {| sockets := sockets r; names := names r; state := state r;
        fresh := S (S (fresh r)) |},
     [Accept (S (fresh r));
      Send (S (fresh r)) (frame_err "ROOM_FULL" "Room full (max 4).");
      Close (S (fresh r)) 1008 (lit "room full")]).
Proof.
  intros Hup Hfull. unfold fetch. rewrite Hup.
  eapply eq_trans.
  - eapply bind_run; [reflexivity|]. cbn [fst snd].
    eapply bind_run; [reflexivity|].
    eapply bind_run; [reflexivity|].
    change (_allocSlot _) with (_allocSlot r). rewrite Hfull.
    change (-1 =? -1) with true. cbv iota.
    eapply bind_run; [reflexivity|].
    eapply bind_run; reflexivity.
  - reflexivity.
Qed.

Lemma fetch_admit (request : Request) (r : Room) (k : Z) :
  not_websocket (Upgrade request) = false ->
  _allocSlot r = k ->
  k <> -1 ->
  let server := S (fresh r) in
  let r' := {| sockets := JsMap.set (sockets r) k server; names := names r;
               state := <[server := {| slot := k |}]> (state r);
               fresh := S (S (fresh r)) |} in
  fetch request r
  = ({| status := 101; body := None; webSocket := Some (fresh r) |}, r',
     Accept server
     :: Send server (frame_welcome k (_playersList r'))
     :: map (fun w' => Send w' (frame_join k (names_read r k)))
            (JsMap.values (JsMap.delete (sockets r') k))).
Proof.
  intros Hup Hk Hne server r'. unfold fetch. rewrite Hup.
  eapply eq_trans.
  - eapply bind_run; [reflexivity|]. cbn [fst snd].
    eapply bind_run; [reflexivity|].
    eapply bind_run; [reflexivity|].
    change (_allocSlot _) with (_allocSlot r). rewrite Hk.
    destruct (k =? -1) eqn:E; [apply Z.eqb_eq in E; contradiction|].
    eapply bind_run; [reflexivity|].
    eapply bind_run; [reflexivity|].
    eapply bind_run; [reflexivity|].
    eapply bind_run; [reflexivity|].
    eapply bind_run; [reflexivity|].
    eapply bind_run; [apply broadcastExcept_run|]. reflexivity.
  - cbn [app sockets names state fresh]. rewrite app_nil_r. reflexivity.
Qed.

(** ** The seat map *)

Lemma has_In (m : list (Z * WebSocket)) (k : Z) :
  JsMap.has m k = true <-> In k (JsMap.keys m).
Proof.
  unfold JsMap.has, JsMap.keys. rewrite existsb_exists, in_map_iff. split.
  - intros [e [He Hk]]. exists e. apply Z.eqb_eq in Hk. auto.
  - intros [e [Hk He]]. exists e. split; [exact He|]. apply Z.eqb_eq. exact Hk.
Qed.

Lemma has_false_In (m : list (Z * WebSocket)) (k : Z) :
  JsMap.has m k = false <-> ~ In k (JsMap.keys m).
Proof.
  rewrite <- has_In. destruct (JsMap.has m k); split; congruence.
Qed.

Lemma get_In (m : list (Z * WebSocket)) (k : Z) (w : WebSocket) :
  JsMap.get m k = Some w -> In (k, w) m.
Proof.
  induction m as [|[k' w'] m IH]; cbn; [discriminate|].
  destruct (k' =? k) eqn:E.
  - apply Z.eqb_eq in E. intros [= ->]. left. congruence.
  - intros H. right. auto.
Qed.

Lemma In_get (m : list (Z * WebSocket)) (k : Z) (w : WebSocket) :
  List.NoDup (JsMap.keys m) -> In (k, w) m -> JsMap.get m k = Some w.
Proof.
  induction m as [|[k' w'] m IH]; cbn; [tauto|].
  intros Hnd [Heq|Hin].
  - injection Heq as -> ->. rewrite Z.eqb_refl. reflexivity.
  - apply List.NoDup_cons_iff in Hnd as [Hk' Hnd].
    destruct (k' =? k) eqn:E.
    + apply Z.eqb_eq in E. subst k'. exfalso. apply Hk'.
      apply in_map_iff. exists (k, w). auto.
    + auto.
Qed.

Lemma get_has (m : list (Z * WebSocket)) (k : Z) (w : WebSocket) :
  JsMap.get m k = Some w -> JsMap.has m k = true.
Proof.
  intros H. apply has_In. apply in_map_iff. exists (k, w).
  split; [reflexivity|]. apply get_In. exact H.
Qed.

(** [set] on a key the map does not have appends the entry. *)
Lemma set_new (m : list (Z * WebSocket)) (k : Z) (w : WebSocket) :
  JsMap.has m k = false -> JsMap.set m k w = m ++ [(k, w)].
Proof.
  induction m as [|[k' w'] m IH]; cbn; [reflexivity|].
  destruct (k' =? k); cbn; [discriminate|]. intros H. rewrite IH; auto.
Qed.

Lemma delete_absent (m : list (Z * WebSocket)) (k : Z) :
  JsMap.has m k = false -> JsMap.delete m k = m.
Proof.
  induction m as [|[k' w'] m IH]; cbn; [reflexivity|].
  destruct (k' =? k); cbn; [discriminate|]. intros H.
  unfold JsMap.delete in IH. rewrite IH; auto.
Qed.

Lemma In_delete (m : list (Z * WebSocket)) (k j : Z) (w : WebSocket) :
  In (j, w) (JsMap.delete m k) <-> In (j, w) m /\ j <> k.
Proof.
  unfold JsMap.delete. rewrite filter_In. cbn.
  rewrite negb_true_iff, Z.eqb_neq. reflexivity.
Qed.

Lemma has_delete (m : list (Z * WebSocket)) (k j : Z) :
  JsMap.has (JsMap.delete m k) j = JsMap.has m j && negb (j =? k).
Proof.
  unfold JsMap.has, JsMap.delete.
  induction m as [|[k' w'] m IH]; cbn; [reflexivity|].
  destruct (k' =? k) eqn:E; cbn; rewrite IH.
  - apply Z.eqb_eq in E. subst k'.
    destruct (k =? j) eqn:E'; cbn; [|reflexivity].
    apply Z.eqb_eq in E'. subst j. rewrite Z.eqb_refl. cbn.
    rewrite andb_false_r. reflexivity.
  - destruct (k' =? j) eqn:E'; cbn; [|reflexivity].
    apply Z.eqb_eq in E'. subst j. rewrite E. reflexivity.
Qed.

Lemma has_delete_same (m : list (Z * WebSocket)) (k : Z) :
  JsMap.has (JsMap.delete m k) k = false.
Proof. rewrite has_delete, Z.eqb_refl. apply andb_false_r. Qed.

Lemma NoDup_keys_delete (m : list (Z * WebSocket)) (k : Z) :
  List.NoDup (JsMap.keys m) -> List.NoDup (JsMap.keys (JsMap.delete m k)).
Proof.
  induction m as [|[k' w'] m IH]; cbn; [auto|].
  intros Hnd. apply List.NoDup_cons_iff in Hnd as [Hk' Hnd].
  destruct (k' =? k); cbn; [auto|].
  apply List.NoDup_cons; [|auto].
  intros Hin. apply Hk'. apply in_map_iff in Hin as [[j w] [Hj Hin]].
  cbn in Hj. subst j. apply In_delete in Hin as [Hin _].
  apply in_map_iff. exists (k', w). auto.
Qed.

Lemma NoDup_values_delete (m : list (Z * WebSocket)) (k : Z) :
  List.NoDup (JsMap.values m) -> List.NoDup (JsMap.values (JsMap.delete m k)).
Proof.
  induction m as [|[k' w'] m IH]; cbn; [auto|].
  intros Hnd. apply List.NoDup_cons_iff in Hnd as [Hw' Hnd].
  destruct (k' =? k); cbn; [auto|].
  apply List.NoDup_cons; [|auto].
  intros Hin. apply Hw'. apply in_map_iff in Hin as [[j w] [Hw Hin]].
  cbn in Hw. subst w. apply In_delete in Hin as [Hin _].
  apply in_map_iff. exists (j, w'). auto.
Qed.

Lemma get_delete_ne (m : list (Z * WebSocket)) (k j : Z) :
  j <> k -> JsMap.get (JsMap.delete m k) j = JsMap.get m j.
Proof.
  intros Hne. induction m as [|[k' w'] m IH]; cbn; [reflexivity|].
  destruct (k' =? k) eqn:E; cbn.
  - apply Z.eqb_eq in E. subst k'.
    destruct (k =? j) eqn:E'; [apply Z.eqb_eq in E'; congruence|]. exact IH.
  - destruct (k' =? j); [reflexivity|exact IH].
Qed.

Lemma get_app_new (m : list (Z * WebSocket)) (k j : Z) (w : WebSocket) :
  JsMap.get (m ++ [(k, w)]) j
  = match JsMap.get m j with
    | Some w' => Some w'
    | None => if k =? j then Some w else None
    end.
Proof.
  induction m as [|[k' w'] m IH]; cbn; [reflexivity|].
  destruct (k' =? j); [reflexivity|exact IH].
Qed.

Lemma get_None_has (m : list (Z * WebSocket)) (k : Z) :
  JsMap.get m k = None <-> JsMap.has m k = false.
Proof.
  induction m as [|[k' w'] m IH]; cbn; [tauto|].
  destruct (k' =? k); cbn; [split; discriminate|exact IH].
Qed.

(** ** Seat allocation *)

Lemma allocSlot_from_spec (n : nat) (i : Z) (m : list (Z * WebSocket)) :
  0 <= i ->
  (allocSlot_from n i m = -1
   /\ forall j, i <= j < i + Z.of_nat n -> JsMap.has m j = true)
  \/ (i <= allocSlot_from n i m < i + Z.of_nat n
      /\ JsMap.has m (allocSlot_from n i m) = false
      /\ forall j, i <= j < allocSlot_from n i m -> JsMap.has m j = true).
Proof.
  revert i. induction n as [|n IH]; intros i Hi.
  - left. split; [reflexivity|]. intros j Hj. lia.
  - cbn [allocSlot_from]. destruct (JsMap.has m i) eqn:E; cbn [negb].
    + destruct (IH (i + 1)) as [[H1 H2]|[H1 [H2 H3]]]; [lia| |].
      * left. split; [exact H1|]. intros j Hj.
        destruct (Z.eq_dec j i) as [->|Hne]; [exact E|]. apply H2. lia.
      * right. split; [lia|]. split; [exact H2|]. intros j Hj.
        destruct (Z.eq_dec j i) as [->|Hne]; [exact E|]. apply H3. lia.
    + right. split; [lia|]. split; [exact E|]. intros j Hj. lia.
Qed.

Lemma allocSlot_spec (r : Room) :
  (_allocSlot r = -1
   /\ forall j, 0 <= j < 4 -> JsMap.has (sockets r) j = true)
  \/ (0 <= _allocSlot r < 4
      /\ JsMap.has (sockets r) (_allocSlot r) = false
      /\ forall j, 0 <= j < _allocSlot r -> JsMap.has (sockets r) j = true).
Proof. apply (allocSlot_from_spec 4 0 (sockets r)). lia. Qed.

(** ** The presence listing *)

(** The listing has one entry per occupied seat of 0..3, in ascending
    order, with the seat's name. *)
Lemma playersList_seats (r : Room) :
  _playersList r
  = map (fun i => player i (names_or_empty r i))
        (List.filter (JsMap.has (sockets r)) [0; 1; 2; 3]).
Proof.
  unfold _playersList. cbn [playersList_from List.filter].
  change (0 + 1) with 1. change (1 + 1) with 2. change (2 + 1) with 3.
  destruct (JsMap.has (sockets r) 0), (JsMap.has (sockets r) 1),
    (JsMap.has (sockets r) 2), (JsMap.has (sockets r) 3); reflexivity.
Qed.

Lemma playersList_In (r : Room) (k : Z) :
  0 <= k < 4 -> JsMap.has (sockets r) k = true ->
  In (player k (names_or_empty r k)) (_playersList r).
Proof.
  intros Hk Hhas. rewrite playersList_seats. apply in_map_iff.
  exists k. split; [reflexivity|]. apply filter_In. split; [|exact Hhas].
  cbn. lia.
Qed.

(** ** Every handler makes one of the moves *)

Lemma strict_eq_str_true (t : jsval) (s : jsstring) :
  strict_eq_str t s = true -> t = JStr s.
Proof.
  destruct t; cbn; try discriminate. intros H.
  apply bool_decide_eq_true in H. congruence.
Qed.

Lemma webSocketMessage_ignored (w : WebSocket) (meta : Meta)
    (message : Message) (data t : jsval) (r : Room) :
  state r !! w = Some meta ->
  JSON_parse (Message_toString message) = Some data ->
  get data (lit "t") = Some t ->
  strict_eq_str t (lit "join") = false ->
  strict_eq_str t (lit "ping") = false ->
  strict_eq_str t (lit "in") = false ->
  strict_eq_str t (lit "snap") = false ->
  webSocketMessage w message r = (tt, r, []).
Proof.
  intros Hmeta Hparse Ht H1 H2 H3 H4.
  unfold webSocketMessage, getWebSocketMetadata, mbind, M_bind, gets.
  cbn [fst snd]. rewrite Hmeta, Hparse, Ht, H1, H2, H3, H4. reflexivity.
Qed.

Lemma take_24_length (s : jsstring) : (length (take 24 s) <= 24)%nat.
Proof. rewrite length_take. lia. Qed.

Lemma webSocketMessage_moves (w : WebSocket) (message : Message) (r : Room) :
  moves r (EMessage w message) (room_after (webSocketMessage w message) r).
Proof.
  unfold room_after.
  destruct (state r !! w) as [meta|] eqn:Hmeta;
    [|rewrite webSocketMessage_unbound by exact Hmeta; apply moves_none].
  destruct (JSON_parse (Message_toString message)) as [data|] eqn:Hparse;
    [|rewrite (webSocketMessage_bad_json _ _ _ _ Hmeta Hparse); apply moves_none].
  destruct (get data (lit "t")) as [t|] eqn:Ht;
    [|rewrite (webSocketMessage_null _ _ _ _ _ Hmeta Hparse Ht); apply moves_none].
  destruct (strict_eq_str t (lit "join")) eqn:H1.
  { apply strict_eq_str_true in H1. subst t.
    rewrite (webSocketMessage_join _ _ _ _ _ Hmeta Hparse Ht). cbn [fst snd].
    apply moves_rename; [exact Hmeta|].
    destruct (read data (lit "name")); cbn; try lia. apply take_24_length. }
  destruct (strict_eq_str t (lit "ping")) eqn:H2.
  { apply strict_eq_str_true in H2. subst t.
    rewrite (webSocketMessage_ping _ _ _ _ _ Hmeta Hparse Ht). apply moves_none. }
  destruct (strict_eq_str t (lit "in")) eqn:H3.
  { apply strict_eq_str_true in H3. subst t.
    rewrite (webSocketMessage_in _ _ _ _ _ Hmeta Hparse Ht). apply moves_none. }
  destruct (strict_eq_str t (lit "snap")) eqn:H4.
  { apply strict_eq_str_true in H4. subst t.
    rewrite (webSocketMessage_snap _ _ _ _ _ Hmeta Hparse Ht). apply moves_none. }
  rewrite (webSocketMessage_ignored _ _ _ _ _ _ Hmeta Hparse Ht H1 H2 H3 H4).
  apply moves_none.
Qed.

Lemma webSocketClose_moves (e : event) (w : WebSocket) (r : Room) :
  e = EClose w \/ e = EError w ->
  moves r e (room_after (webSocketClose w) r).
Proof.
  intros He. unfold room_after.
  destruct (state r !! w) as [meta|] eqn:Hmeta.
  - rewrite (webSocketClose_run _ _ _ Hmeta). cbn [fst snd].
    apply (moves_vacate r e w meta He Hmeta).
  - rewrite webSocketClose_unbound by exact Hmeta. apply moves_none.
Qed.

Lemma fetch_moves (request : Request) (r : Room) :
  moves r (EFetch request) (room_after (fetch request) r).
Proof.
  unfold room_after.
  destruct (not_websocket (Upgrade request)) eqn:Hup.
  - rewrite fetch_not_websocket by exact Hup. apply moves_none.
  - destruct (allocSlot_spec r) as [[Hfull _]|[Hk [Hfree _]]].
    + rewrite fetch_room_full by assumption. apply moves_reject.
    + rewrite (fetch_admit request r (_allocSlot r) Hup eq_refl) by lia.
      cbn [fst snd]. rewrite set_new by exact Hfree.
      apply moves_admit; assumption.
Qed.

Lemma room_after_then_ret {A : Type} (c : M A) (r : Room) :
  room_after (c ;; mret tt) r = room_after c r.
Proof. reflexivity. Qed.

Lemma handle_moves (e : event) (r : Room) :
  moves r e (room_after (handle e) r).
Proof.
  destruct e as [request|w message|w|w]; cbn [handle].
  - rewrite room_after_then_ret. apply fetch_moves.
  - apply webSocketMessage_moves.
  - apply webSocketClose_moves. auto.
  - apply webSocketClose_moves. auto.
Qed.

(** ** The invariants hold after every run *)

Lemma new_Room_names (k : Z) :
  names new_Room !! k = if bool_decide (0 <= k < 4) then Some [] else None.
Proof.
  unfold new_Room. cbn [names].
  destruct (decide (k = 3)) as [->|H3]; [reflexivity|].
  rewrite lookup_insert_ne by congruence.
  destruct (decide (k = 2)) as [->|H2]; [reflexivity|].
  rewrite lookup_insert_ne by congruence.
  destruct (decide (k = 1)) as [->|H1]; [reflexivity|].
  rewrite lookup_insert_ne by congruence.
  destruct (decide (k = 0)) as [->|H0]; [reflexivity|].
  rewrite lookup_insert_ne by congruence. rewrite lookup_empty.
  rewrite bool_decide_eq_false_2 by lia. reflexivity.
Qed.

Lemma consistent_new_Room : consistent new_Room.
Proof.
  split.
  - intros k w [].
  - constructor.
  - constructor.
  - intros w meta H. cbn in H. rewrite lookup_empty in H. discriminate.
  - intros k s H. rewrite new_Room_names in H.
    destruct (bool_decide_reflect (0 <= k < 4)) as [Hk|Hk]; [|discriminate].
    injection H as <-. split; [exact Hk|]. cbn. lia.
  - intros k Hk. rewrite new_Room_names, bool_decide_eq_true_2 by exact Hk.
    eexists. reflexivity.
Qed.

Lemma moves_consistent (r r' : Room) (e : event) :
  consistent r -> moves r e r' -> consistent r'.
Proof.
  intros [Hseat Hkeys Hvals Hmeta Hname Hdef] Hmove.
  destruct Hmove as [e|request|request k Hk Hfree|w message meta name Hw Hlen
                     |e w meta He Hw].
  - split; assumption.
  - split; cbn [sockets names state fresh]; try assumption.
    + intros k w Hin. destruct (Hseat k w Hin) as (H1 & H2 & H3).
      split; [exact H1|]. split; [lia|exact H3].
    + intros w meta Hw. destruct (Hmeta w meta Hw). split; [lia|assumption].
  - split; cbn [sockets names state fresh]; try assumption.
    + intros j w Hin. apply in_app_or in Hin as [Hin|[Heq|[]]].
      * destruct (Hseat j w Hin) as (H1 & H2 & H3).
        split; [exact H1|]. split; [lia|].
        rewrite lookup_insert_ne by lia. exact H3.
      * injection Heq as <- <-. split; [exact Hk|]. split; [lia|].
        apply lookup_insert_eq.
    + unfold JsMap.keys. rewrite map_app. cbn [map fst].
      apply List.NoDup_app; [exact Hkeys|repeat constructor; cbn; tauto|].
      intros j Hj [<-|[]]. apply has_false_In in Hfree. contradiction.
    + unfold JsMap.values. rewrite map_app. cbn [map snd].
      apply List.NoDup_app; [exact Hvals|repeat constructor; cbn; tauto|].
      intros w Hw [<-|[]].
      apply in_map_iff in Hw as [[j w'] [Hw' Hin]]. cbn in Hw'. subst w'.
      destruct (Hseat j _ Hin) as (_ & H2 & _). lia.
    + intros w meta Hw.
      destruct (decide (w = S (fresh r))) as [->|Hne].
      * rewrite lookup_insert_eq in Hw. injection Hw as <-.
        cbn [slot]. split; [lia|exact Hk].
      * rewrite lookup_insert_ne in Hw by congruence.
        destruct (Hmeta w meta Hw). split; [lia|assumption].
  - split; cbn [sockets names state fresh]; try assumption.
    + intros k s Hk. destruct (decide (k = slot meta)) as [->|Hne].
      * rewrite lookup_insert_eq in Hk. injection Hk as <-.
        split; [apply (Hmeta w meta Hw)|exact Hlen].
      * rewrite lookup_insert_ne in Hk by congruence. exact (Hname k s Hk).
    + intros k Hk. destruct (decide (k = slot meta)) as [->|Hne].
      * rewrite lookup_insert_eq. eexists. reflexivity.
      * rewrite lookup_insert_ne by congruence. exact (Hdef k Hk).
  - split; cbn [sockets names state fresh]; try assumption.
    + intros k w' Hin. apply In_delete in Hin as [Hin _]. exact (Hseat k w' Hin).
    + apply NoDup_keys_delete. exact Hkeys.
    + apply NoDup_values_delete. exact Hvals.
    + intros k s Hk. destruct (decide (k = slot meta)) as [->|Hne].
      * rewrite lookup_insert_eq in Hk. injection Hk as <-.
        split; [apply (Hmeta w meta Hw)|cbn; lia].
      * rewrite lookup_insert_ne in Hk by congruence. exact (Hname k s Hk).
    + intros k Hk. destruct (decide (k = slot meta)) as [->|Hne].
      * rewrite lookup_insert_eq. eexists. reflexivity.
      * rewrite lookup_insert_ne by congruence. exact (Hdef k Hk).
Qed.

Lemma run_consistent (evs : list event) (r : Room) :
  consistent r -> consistent (run evs r).
Proof.
  revert r. induction evs as [|e evs IH]; intros r Hr; [exact Hr|].
  cbn [run fold_left]. apply IH.
  exact (moves_consistent _ _ _ Hr (handle_moves e r)).
Qed.

Lemma reachable_consistent (r : Room) : reachable r -> consistent r.
Proof. intros [evs <-]. apply run_consistent, consistent_new_Room. Qed.

Lemma has_app_new (m : list (Z * WebSocket)) (k j : Z) (w : WebSocket) :
  JsMap.has (m ++ [(k, w)]) j = JsMap.has m j || (k =? j).
Proof.
  unfold JsMap.has. rewrite existsb_app. cbn. rewrite orb_false_r. reflexivity.
Qed.

Lemma not_closed (closed : list WebSocket) (w : WebSocket) :
  negb (existsb (Nat.eqb w) closed) = true <-> ~ In w closed.
Proof.
  rewrite negb_true_iff. split.
  - intros H Hin. assert (existsb (Nat.eqb w) closed = true) as H'.
    { apply existsb_exists. exists w. split; [exact Hin|apply Nat.eqb_refl]. }
    congruence.
  - intros H. destruct (existsb (Nat.eqb w) closed) eqn:E; [|reflexivity].
    apply existsb_exists in E as [w' [Hin Heq]]. apply Nat.eqb_eq in Heq.
    subst w'. contradiction.
Qed.

Lemma settled_new_Room : settled [] new_Room.
Proof.
  split.
  - intros w meta H. cbn in H. rewrite lookup_empty in H. discriminate.
  - intros k Hk _. rewrite new_Room_names, bool_decide_eq_true_2 by exact Hk.
    reflexivity.
Qed.

Lemma moves_settled (closed : list WebSocket) (r r' : Room) (e : event) :
  consistent r -> settled closed r ->
  deliverable closed e = true ->
  moves r e r' ->
  settled (closed_after closed e) r'.
Proof.
  intros Hr [Hlive Hvacant] Hdel Hmove.
  destruct Hmove as [e|request|request k Hk Hfree|w message meta name Hw Hlen
                     |e w meta He Hw].
  - split; [|exact Hvacant]. intros w meta Hw Hnot. apply (Hlive w meta Hw).
    intros Hin. apply Hnot. destruct e; cbn; auto.
  - split; cbn [sockets names state fresh closed_after]; assumption.
  - split; cbn [sockets names state fresh closed_after].
    + intros w meta Hw Hnot. rewrite get_app_new.
      destruct (decide (w = S (fresh r))) as [->|Hne].
      * rewrite lookup_insert_eq in Hw. injection Hw as <-. cbn [slot].
        apply get_None_has in Hfree. rewrite Hfree, Z.eqb_refl. reflexivity.
      * rewrite lookup_insert_ne in Hw by congruence.
        rewrite (Hlive w meta Hw Hnot). reflexivity.
    + intros j Hj Hhas. rewrite has_app_new in Hhas.
      apply orb_false_iff in Hhas as [Hhas _]. exact (Hvacant j Hj Hhas).
  - cbn in Hdel. apply not_closed in Hdel.
    split; cbn [sockets names state fresh closed_after]; [exact Hlive|].
    intros j Hj Hhas. rewrite lookup_insert_ne; [exact (Hvacant j Hj Hhas)|].
    intros <-. pose proof (get_has _ _ _ (Hlive w meta Hw Hdel)). congruence.
  - assert (~ In w closed /\ closed_after closed e = w :: closed) as [Hnot ->].
    { destruct He as [-> | ->]; cbn in Hdel; apply not_closed in Hdel; auto. }
    pose proof (Hlive w meta Hw Hnot) as Hseat.
    split; cbn [sockets names state fresh].
    + intros w' meta' Hw' Hnot'.
      assert (w' <> w) as Hne by (intros ->; apply Hnot'; left; reflexivity).
      assert (~ In w' closed) as Hnc by (intros Hin; apply Hnot'; right; exact Hin).
      pose proof (Hlive w' meta' Hw' Hnc) as Hseat'.
      rewrite get_delete_ne; [exact Hseat'|].
      intros Heq. rewrite Heq in Hseat'. congruence.
    + intros j Hj Hhas. destruct (decide (j = slot meta)) as [->|Hne].
      * apply lookup_insert_eq.
      * rewrite lookup_insert_ne by congruence. apply (Hvacant j Hj).
        rewrite has_delete in Hhas. apply andb_false_iff in Hhas as [H|H];
          [exact H|]. apply negb_false_iff, Z.eqb_eq in H. contradiction.
Qed.

Lemma run_settled (evs : list event) (closed : list WebSocket) (r : Room) :
  consistent r -> settled closed r ->
  orderly_from closed evs = true ->
  exists closed', settled closed' (run evs r).
Proof.
  revert closed r. induction evs as [|e evs IH]; intros closed r Hr Hs Hord.
  - exists closed. exact Hs.
  - cbn [orderly_from] in Hord. apply andb_true_iff in Hord as [Hdel Hord].
    cbn [run fold_left].
    apply (IH (closed_after closed e)); [| |exact Hord].
    + exact (moves_consistent _ _ _ Hr (handle_moves e r)).
    + exact (moves_settled _ _ _ _ Hr Hs Hdel (handle_moves e r)).
Qed.

(** ** Frames received by a socket *)

Lemma sent_to_absent (w : WebSocket) (frame : jsval) (l : list WebSocket) :
  ~ In w l -> sent_to w (map (fun w' => Send w' frame) l) = [].
Proof.
  induction l as [|w' l IH]; cbn; [reflexivity|]. intros Hnot.
  destruct (Nat.eqb_spec w' w) as [->|Hne]; [tauto|]. cbn.
  apply IH. tauto.
Qed.

Lemma sent_to_once (w : WebSocket) (frame : jsval) (l : list WebSocket) :
  List.NoDup l -> In w l -> sent_to w (map (fun w' => Send w' frame) l) = [frame].
Proof.
  induction l as [|w' l IH]; cbn; [tauto|]. intros Hnd Hin.
  apply List.NoDup_cons_iff in Hnd as [Hw' Hnd].
  destruct (Nat.eqb_spec w' w) as [->|Hne]; cbn.
  - f_equal. apply (sent_to_absent w frame l Hw').
  - destruct Hin as [Heq|Hin]; [contradiction|]. auto.
Qed.

Lemma sent_to_app (w : WebSocket) (out1 out2 : list effect) :
  sent_to w (out1 ++ out2) = sent_to w out1 ++ sent_to w out2.
Proof. unfold sent_to. apply flat_map_app. Qed.

Lemma seats_at_most_4 (r : Room) :
  consistent r -> (occupied_seats r <= 4)%nat.
Proof.
  intros Hr. unfold occupied_seats, JsMap.size.
  rewrite <- (length_map fst (sockets r)).
  change 4%nat with (length [0; 1; 2; 3]).
  apply List.NoDup_incl_length; [exact (seat_keys r Hr)|].
  intros k Hk. apply in_map_iff in Hk as [[k' w] [Hk' Hin]]. cbn in Hk'.
  subst k'. destruct (seat_entry r Hr k w Hin) as [Hrange _]. cbn. lia.
Qed.

Lemma full_allocSlot (r : Room) :
  (forall k, 0 <= k < 4 -> occupied r k) -> _allocSlot r = -1.
Proof.
  intros Hall. destruct (allocSlot_spec r) as [[H _]|[Hk [Hfree _]]];
    [exact H|]. rewrite (Hall _ Hk) in Hfree. discriminate.
Qed.

(** ** The claims *)

(** C1. In every reachable state of a room at most 4 seats are occupied.
    An admission attempt made while seats 0..3 are all occupied accepts the
    new socket, sends it the single frame [{t:"err", code:"ROOM_FULL",
    msg}] and closes it with code 1008; the seat map, the names and the
    bindings of the existing sessions are unchanged, the new socket gets
    no binding, and no existing session is sent anything.  The upgrade
    itself is answered with status 101. *)
Theorem room_capacity (r : Room) (request : Request) :
  reachable r ->
  (occupied_seats r <= 4)%nat
  /\ (not_websocket (Upgrade request) = false ->
      (forall k, 0 <= k < 4 -> occupied r k) ->
      let server := S (fresh r) in
      let r' := room_after (fetch request) r in
      let out := log_of (fetch request) r in
      let frame := JObj [(lit "t", JStr (lit "err"));
                         (lit "code", JStr (lit "ROOM_FULL"));
                         (lit "msg", JStr (lit "Room full (max 4)."))] in
      out = [Accept server; Send server frame;
             Close server 1008 (lit "room full")]
      /\ sent_to server out = [frame]
      /\ sockets r' = sockets r /\ names r' = names r /\ state r' = state r
      /\ state r' !! server = None
      /\ ~ In server (JsMap.values (sockets r))
      /\ (forall w, In w (JsMap.values (sockets r)) -> sent_to w out = [])
      /\ result_of (fetch request) r
         = {| status := 101; body := None; webSocket := Some (fresh r) |}).
Proof.
  intros Hreach. pose proof (reachable_consistent r Hreach) as Hr.
  split; [exact (seats_at_most_4 r Hr)|].
  intros Hup Hall server r' out frame.
  assert (frame = frame_err "ROOM_FULL" "Room full (max 4).") as Hframe
    by reflexivity.
  clearbody frame. subst frame.
  pose proof (fetch_room_full request r Hup (full_allocSlot r Hall)) as Hrun.
  assert (~ In server (JsMap.values (sockets r))) as Hnew.
  { intros Hin. apply in_map_iff in Hin as [[k w] [Hw Hin]]. cbn in Hw.
    subst w. destruct (seat_entry r Hr k _ Hin) as (_ & Hlt & _).
    unfold server in Hlt. lia. }
  unfold r', out, room_after, log_of, result_of. rewrite Hrun.
  cbn [fst snd sockets names state].
  repeat split; try reflexivity.
  - unfold sent_to, server. cbn [flat_map]. rewrite Nat.eqb_refl. reflexivity.
  - destruct (state r !! server) as [meta|] eqn:E; [|reflexivity].
    destruct (meta_entry r Hr server meta E) as [Hlt _]. unfold server in Hlt. lia.
  - exact Hnew.
  - intros w Hw. unfold sent_to. cbn [flat_map].
    destruct (Nat.eqb_spec (S (fresh r)) w) as [Heq|Hne]; [|reflexivity].
    subst w. contradiction.
Qed.

(** C2. When some seat of 0..3 is empty, allocation returns the lowest
    empty index [k]: [k] is in [0,4), not in the seat map, and every index
    below it is occupied.  The admission binds the new socket to that [k]
    and seats it there. *)
Theorem admission_takes_lowest_empty_seat (r : Room) (request : Request) (j : Z) :
  not_websocket (Upgrade request) = false ->
  0 <= j < 4 ->
  JsMap.has (sockets r) j = false ->
  let k := _allocSlot r in
  let server := S (fresh r) in
  let r' := room_after (fetch request) r in
  (0 <= k < 4 /\ k <= j
   /\ JsMap.has (sockets r) k = false
   /\ forall i, 0 <= i < k -> JsMap.has (sockets r) i = true)
  /\ sockets r' = sockets r ++ [(k, server)]
  /\ state r' !! server = Some {| slot := k |}
  /\ JsMap.get (sockets r') k = Some server
  /\ In (Send server (frame_welcome k (_playersList r')))
        (log_of (fetch request) r).
Proof.
  intros Hup Hj Hfree k server r'.
  destruct (allocSlot_spec r) as [[_ Hall]|[Hk [Hempty Hbelow]]];
    [rewrite (Hall j Hj) in Hfree; discriminate|].
  fold k in Hk, Hempty, Hbelow.
  assert (k <= j) as Hle.
  { destruct (Z.le_gt_cases k j) as [H|H]; [exact H|].
    rewrite Hbelow in Hfree by lia. discriminate. }
  pose proof (fetch_admit request r k Hup eq_refl ltac:(lia)) as Hrun.
  cbv zeta in Hrun.
  unfold r', room_after, log_of. rewrite Hrun. cbn [fst snd sockets names state].
  rewrite set_new by exact Hempty.
  split; [auto|]. split; [reflexivity|]. split; [apply lookup_insert_eq|].
  split.
  - rewrite get_app_new. apply get_None_has in Hempty. rewrite Hempty.
    rewrite Z.eqb_refl. reflexivity.
  - right. left. reflexivity.
Qed.

(** C3, as amended. A [snap] frame relayed for a sender is the object
    [{t:"snap", st}] with [st] the sender's [st] (or [null]), plus [s] when
    the sender's [s] is a number; it has no [slot] field, so it does not
    carry the sender's seat. *)
Theorem snap_frame_has_no_slot (r : Room) (w : WebSocket) (meta : Meta)
    (message : Message) (data : jsval) :
  state r !! w = Some meta ->
  JSON_parse (Message_toString message) = Some data ->
  get data (lit "t") = Some (JStr (lit "snap")) ->
  let frame := payload_snap data in
  (forall w' f, In (Send w' f) (log_of (webSocketMessage w message) r) ->
                f = frame)
  /\ get frame (lit "t") = Some (JStr (lit "snap"))
  /\ get frame (lit "st") = Some (nullish_or_null (read data (lit "st")))
  /\ get frame (lit "s")
     = Some (if is_number (read data (lit "s")) then read data (lit "s")
             else JUndefined)
  /\ get frame (lit "slot") = Some JUndefined
  /\ (forall k, ~ carries_slot frame k)
  /\ (forall v, ~ In (lit "slot", v) (stringified_props frame)).
Proof.
  intros Hmeta Hparse Ht frame.
  split.
  { intros w' f Hin. unfold log_of in Hin.
    rewrite (webSocketMessage_snap _ _ _ _ _ Hmeta Hparse Ht) in Hin.
    cbn [snd] in Hin. apply in_map_iff in Hin as [w'' [Heq _]].
    injection Heq as _ <-. reflexivity. }
  unfold carries_slot, frame, payload_snap, with_s.
  destruct (is_number (read data (lit "s"))) eqn:Hs.
  - repeat split; try reflexivity.
    + intros k. cbn. discriminate.
    + intros v Hin. cbn [stringified_props] in Hin.
      apply filter_In in Hin as [Hin _].
      cbn in Hin. destruct Hin as [H|[H|[H|[]]]]; discriminate.
  - repeat split; try reflexivity.
    + intros k. cbn. discriminate.
    + intros v Hin. cbn [stringified_props] in Hin.
      apply filter_In in Hin as [Hin _].
      cbn in Hin. destruct Hin as [H|[H|[]]]; discriminate.
Qed.

(** C4. A [join] from the open session [w] of seat [k] takes as name
    [data.name] cut to its first 24 code units, or the empty string when
    [data.name] is missing or not a string; stores it as [names[k]]; sends
    [{t:"join", slot:k, name}] to every session of the room, the sender
    among them; then sends the sender [{t:"presence", players}] with the
    listing computed from the updated room. *)
Theorem join_sets_name_and_announces (r : Room) (w : WebSocket) (k : Z)
    (message : Message) (data : jsval) :
  session_at r w k ->
  JSON_parse (Message_toString message) = Some data ->
  get data (lit "t") = Some (JStr (lit "join")) ->
  let name := join_name data in
  let r' := room_after (webSocketMessage w message) r in
  let notice := JObj [(lit "t", JStr (lit "join"));
                      (lit "slot", JNum (num k));
                      (lit "name", JStr name)] in
  let presence := JObj [(lit "t", JStr (lit "presence"));
                        (lit "players", JArr (_playersList r'))] in
  (forall s, read data (lit "name") = JStr s -> name = take 24 s)
  /\ ((forall s, read data (lit "name") <> JStr s) -> name = [])
  /\ (length name <= 24)%nat
  /\ names r' = <[k := name]> (names r)
  /\ names r' !! k = Some name
  /\ sockets r' = sockets r /\ state r' = state r
  /\ log_of (webSocketMessage w message) r
     = map (fun w' => Send w' notice) (JsMap.values (sockets r))
       ++ [Send w presence]
  /\ In w (JsMap.values (sockets r))
  /\ (0 <= k < 4 ->
      In (JObj [(lit "slot", JNum (num k)); (lit "name", JStr name)])
         (_playersList r')).
Proof.
  intros [Hseat Hmeta] Hparse Ht name r' notice presence.
  assert (notice = frame_join k (JStr name)) as Hnotice by reflexivity.
  assert (presence = frame_presence (_playersList r')) as Hpresence
    by reflexivity.
  clearbody notice presence. subst notice presence.
  change (JObj [(lit "slot", JNum (num k)); (lit "name", JStr name)])
    with (player k name).
  pose proof (webSocketMessage_join w _ message data r Hmeta Hparse Ht) as Hrun.
  cbv zeta in Hrun. cbn [slot] in Hrun. fold (join_name data) in Hrun.
  fold name in Hrun.
  assert (r' = {| sockets := sockets r; names := <[k := name]> (names r);
                  state := state r; fresh := fresh r |}) as Hr'.
  { unfold r', room_after. rewrite Hrun. reflexivity. }
  split; [intros s Hs; unfold name, join_name; rewrite Hs; reflexivity|].
  split.
  { intros Hs. unfold name, join_name.
    destruct (read data (lit "name")) as [| | | |s| |]; try reflexivity.
    exfalso. exact (Hs s eq_refl). }
  split.
  { unfold name, join_name. destruct (read data (lit "name")); cbn; try lia.
    apply take_24_length. }
  split; [rewrite Hr'; reflexivity|].
  split; [rewrite Hr'; apply lookup_insert_eq|].
  split; [rewrite Hr'; reflexivity|].
  split; [rewrite Hr'; reflexivity|].
  split.
  { unfold log_of. rewrite Hrun. cbn [snd]. rewrite <- Hr'. reflexivity. }
  split.
  { apply in_map_iff. exists (k, w). split; [reflexivity|apply get_In, Hseat]. }
  intros Hk.
  assert (names_or_empty r' k = name) as <-.
  { unfold names_or_empty. rewrite Hr'. cbn [names].
    rewrite lookup_insert_eq. reflexivity. }
  apply playersList_In; [exact Hk|]. rewrite Hr'. cbn [sockets].
  exact (get_has _ _ _ Hseat).
Qed.

(** C8. A message that [JSON.parse] rejects, on a socket bound to a seat,
    sends that socket the one frame [{t:"err", code:"BAD_JSON", msg}] and
    nothing to any other socket; the room (seat map, names, bindings) is
    unchanged, so the session stays open at its seat, and the socket is not
    closed. *)
Theorem bad_json_is_reported_to_sender_only (r : Room) (w : WebSocket)
    (k : Z) (message : Message) :
  session_at r w k ->
  JSON_parse (Message_toString message) = None ->
  let out := log_of (webSocketMessage w message) r in
  let frame := JObj [(lit "t", JStr (lit "err"));
                     (lit "code", JStr (lit "BAD_JSON"));
                     (lit "msg", JStr (lit "Invalid JSON"))] in
  out = [Send w frame]
  /\ sent_to w out = [frame]
  /\ (forall w', w' <> w -> sent_to w' out = [])
  /\ room_after (webSocketMessage w message) r = r
  /\ session_at (room_after (webSocketMessage w message) r) w k
  /\ (forall w' code reason, ~ In (Close w' code reason) out).
Proof.
  intros Hsession Hparse out frame.
  assert (frame = frame_err "BAD_JSON" "Invalid JSON") as Hframe by reflexivity.
  clearbody frame. subst frame.
  pose proof (webSocketMessage_bad_json w _ message r (proj2 Hsession) Hparse)
    as Hrun.
  unfold out, log_of, room_after. rewrite Hrun. cbn [fst snd].
  split; [reflexivity|].
  split; [unfold sent_to; cbn [flat_map]; rewrite Nat.eqb_refl; reflexivity|].
  split.
  { intros w' Hne. unfold sent_to. cbn [flat_map].
    destruct (Nat.eqb_spec w w') as [Heq|_]; [congruence|reflexivity]. }
  split; [reflexivity|]. split; [exact Hsession|].
  intros w' code reason [H|[]]. discriminate.
Qed.

(** ** The other sessions of a room *)

Lemma others_of_session (r : Room) (w : WebSocket) (k : Z) (w' : WebSocket) :
  consistent r -> session_at r w k ->
  In w' (JsMap.values (JsMap.delete (sockets r) k))
  <-> In w' (JsMap.values (sockets r)) /\ w' <> w.
Proof.
  intros Hr [Hseat Hmeta]. unfold JsMap.values. rewrite !in_map_iff. split.
  - intros [[j w''] [Hw Hin]]. cbn in Hw. subst w''.
    apply In_delete in Hin as [Hin Hne]. split.
    + exists (j, w'). auto.
    + intros ->. destruct (seat_entry r Hr j w Hin) as (_ & _ & Hj). congruence.
  - intros [[[j w''] [Hw Hin]] Hne]. cbn in Hw. subst w''.
    exists (j, w'). split; [reflexivity|]. apply In_delete. split; [exact Hin|].
    intros ->. rewrite (In_get _ _ _ (seat_keys r Hr) Hin) in Hseat. congruence.
Qed.

(** C5. An [in] or [snap] message from the open session of seat [k]
    leaves the room unchanged and sends the relayed frame once to every
    other session of the room, and never to the sender. *)
Theorem relay_reaches_others_not_sender (r : Room) (w : WebSocket) (k : Z)
    (message : Message) (data : jsval) :
  reachable r ->
  session_at r w k ->
  JSON_parse (Message_toString message) = Some data ->
  get data (lit "t") = Some (JStr (lit "in"))
  \/ get data (lit "t") = Some (JStr (lit "snap")) ->
  let frame := if strict_eq_str (read data (lit "t")) (lit "in")
               then payload_in k data else payload_snap data in
  let out := log_of (webSocketMessage w message) r in
  (forall w', In w' (JsMap.values (sockets r)) -> w' <> w ->
              sent_to w' out = [frame])
  /\ sent_to w out = []
  /\ (forall w' f, In (Send w' f) out ->
                   In w' (JsMap.values (sockets r)) /\ w' <> w /\ f = frame)
  /\ room_after (webSocketMessage w message) r = r.
Proof.
  intros Hreach Hsession Hparse Ht frame out.
  pose proof (reachable_consistent r Hreach) as Hr.
  assert (webSocketMessage w message r
          = (tt, r, map (fun w' => Send w' frame)
                        (JsMap.values (JsMap.delete (sockets r) k)))) as Hrun.
  { unfold frame, read. destruct Ht as [Ht|Ht]; rewrite Ht.
    - exact (webSocketMessage_in w _ message data r (proj2 Hsession) Hparse Ht).
    - exact (webSocketMessage_snap w _ message data r (proj2 Hsession) Hparse Ht). }
  unfold out, log_of, room_after. rewrite Hrun. cbn [fst snd].
  split.
  { intros w' Hin Hne. apply sent_to_once.
    - apply NoDup_values_delete, (seat_sockets r Hr).
    - apply (others_of_session r w k w' Hr Hsession). auto. }
  split.
  { apply sent_to_absent. intros Hin.
    apply (others_of_session r w k w Hr Hsession) in Hin as [_ Hne]. congruence. }
  split; [|reflexivity].
  intros w' f Hin. apply in_map_iff in Hin as [w'' [Heq Hin]].
  injection Heq as -> <-.
  apply (others_of_session r w k w' Hr Hsession) in Hin as [Hin Hne]. auto.
Qed.

(** C6. The disconnection (close or error) of a socket bound to seat [k]
    removes [k] from the seat map, sets [names[k]] to the empty string,
    sends [{t:"leave", slot:k}] to every remaining session and then
    [{t:"presence", players}] to the same sessions, the listing being
    computed from the room after the removal, so without seat [k].  The
    disconnection of a socket with no binding changes and sends nothing. *)
Theorem disconnect_vacates_and_notifies (r : Room) (w : WebSocket)
    (bound : option Meta) :
  state r !! w = bound ->
  let r' := room_after (webSocketClose w) r in
  let out := log_of (webSocketClose w) r in
  webSocketError w r = webSocketClose w r
  /\ match bound with
     | Some meta =>
         let k := slot meta in
         let remaining := JsMap.values (sockets r') in
         let leave := JObj [(lit "t", JStr (lit "leave"));
                            (lit "slot", JNum (num k))] in
         let presence := JObj [(lit "t", JStr (lit "presence"));
                               (lit "players", JArr (_playersList r'))] in
         sockets r' = JsMap.delete (sockets r) k
         /\ JsMap.has (sockets r') k = false
         /\ names r' = <[k := []]> (names r)
         /\ names r' !! k = Some []
         /\ state r' = state r
         /\ out = map (fun w' => Send w' leave) remaining
                  ++ map (fun w' => Send w' presence) remaining
         /\ _playersList r'
            = map (fun i => JObj [(lit "slot", JNum (num i));
                                  (lit "name", JStr (names_or_empty r' i))])
                  (List.filter (JsMap.has (sockets r')) [0; 1; 2; 3])
         /\ ~ In k (List.filter (JsMap.has (sockets r')) [0; 1; 2; 3])
     | None => r' = r /\ out = []
     end.
Proof.
  intros Hbound r' out. split; [reflexivity|].
  destruct bound as [meta|].
  - pose proof (webSocketClose_run w meta r Hbound) as Hrun. cbv zeta in Hrun.
    unfold out, r', log_of, room_after. rewrite Hrun.
    cbn [fst snd sockets names state].
    split; [reflexivity|]. split; [apply has_delete_same|].
    split; [reflexivity|]. split; [apply lookup_insert_eq|].
    split; [reflexivity|].
    split; [change (frame_leave (slot meta)) with
              (JObj [(lit "t", JStr (lit "leave"));
                     (lit "slot", JNum (num (slot meta)))]); reflexivity|].
    split; [exact (playersList_seats _)|].
    intros Hin. apply filter_In in Hin as [_ Hin].
    rewrite has_delete_same in Hin. discriminate.
  - unfold out, r', log_of, room_after.
    rewrite (webSocketClose_unbound w r Hbound). split; reflexivity.
Qed.

(** C7. An admission into seat [k] sends the new socket the frame
    [{t:"welcome", slot:k, players}], whose listing is computed after seat
    [k] is occupied and so has the entry of seat [k]; every session that was
    in the room is sent [{t:"join", slot:k, name}] once, with [name] the
    value of [names[k]] at that time, which the admission does not change. *)
Theorem admission_welcome_and_join_notice (r : Room) (request : Request) :
  reachable r ->
  not_websocket (Upgrade request) = false ->
  _allocSlot r <> -1 ->
  let k := _allocSlot r in
  let server := S (fresh r) in
  let r' := room_after (fetch request) r in
  let out := log_of (fetch request) r in
  let welcome := JObj [(lit "t", JStr (lit "welcome"));
                       (lit "slot", JNum (num k));
                       (lit "players", JArr (_playersList r'))] in
  let notice := JObj [(lit "t", JStr (lit "join"));
                      (lit "slot", JNum (num k));
                      (lit "name", names_read r k)] in
  JsMap.has (sockets r') k = true
  /\ out = Accept server
           :: Send server welcome
           :: map (fun w => Send w notice) (JsMap.values (sockets r))
  /\ sent_to server out = [welcome]
  /\ In (JObj [(lit "slot", JNum (num k));
               (lit "name", JStr (names_or_empty r k))])
        (_playersList r')
  /\ names r' = names r
  /\ (forall w, In w (JsMap.values (sockets r)) -> sent_to w out = [notice]).
Proof.
  intros Hreach Hup Hne k server r' out welcome notice.
  assert (welcome = frame_welcome k (_playersList r')) as Hwelcome
    by reflexivity.
  assert (notice = frame_join k (names_read r k)) as Hnotice by reflexivity.
  clearbody welcome notice. subst welcome notice.
  change (JObj [(lit "slot", JNum (num k));
                (lit "name", JStr (names_or_empty r k))])
    with (player k (names_or_empty r k)).
  pose proof (reachable_consistent r Hreach) as Hr.
  destruct (allocSlot_spec r) as [[Hfull _]|[Hk [Hempty _]]]; [contradiction|].
  fold k in Hk, Hempty.
  pose proof (fetch_admit request r k Hup eq_refl Hne) as Hrun.
  cbv zeta in Hrun. rewrite set_new in Hrun by exact Hempty.
  assert (JsMap.delete (sockets r ++ [(k, server)]) k = sockets r) as Hothers.
  { unfold JsMap.delete. rewrite List.filter_app. cbn. rewrite Z.eqb_refl. cbn.
    rewrite app_nil_r. apply (delete_absent _ _ Hempty). }
  cbn [sockets] in Hrun. fold server in Hrun. rewrite Hothers in Hrun.
  assert (~ In server (JsMap.values (sockets r))) as Hnew.
  { intros Hin. apply in_map_iff in Hin as [[j w] [Hw Hin]]. cbn in Hw.
    subst w. destruct (seat_entry r Hr j _ Hin) as (_ & Hlt & _).
    unfold server in Hlt. lia. }
  assert (r' = {| sockets := sockets r ++ [(k, server)]; names := names r;
                  state := <[server := {| slot := k |}]> (state r);
                  fresh := S server |}) as Hr'.
  { unfold r', room_after. rewrite Hrun. reflexivity. }
  assert (JsMap.has (sockets r') k = true) as Hhas.
  { rewrite Hr'. cbn [sockets]. rewrite has_app_new, Z.eqb_refl.
    apply orb_true_r. }
  assert (out = [Accept server; Send server (frame_welcome k (_playersList r'))]
                ++ map (fun w => Send w (frame_join k (names_read r k)))
                       (JsMap.values (sockets r))) as Hout.
  { unfold out, log_of. rewrite Hrun. cbn [snd]. rewrite <- Hr'. reflexivity. }
  split; [exact Hhas|]. split; [exact Hout|].
  split.
  { rewrite Hout, sent_to_app, (sent_to_absent _ _ _ Hnew).
    unfold sent_to. cbn [flat_map]. rewrite Nat.eqb_refl. reflexivity. }
  split.
  { replace (names_or_empty r k) with (names_or_empty r' k)
      by (rewrite Hr'; reflexivity).
    apply playersList_In; assumption. }
  split; [rewrite Hr'; reflexivity|].
  intros w Hw. rewrite Hout, sent_to_app.
  rewrite (sent_to_once _ _ _ (seat_sockets r Hr) Hw).
  unfold sent_to. cbn [flat_map].
  destruct (Nat.eqb_spec server w) as [Heq|_]; [|reflexivity].
  subst w. contradiction.
Qed.


(** C10. The frame relayed for an [in] message has [i: null] when the
    sender's [i] is absent, [undefined] or [null], and the one relayed for a
    [snap] message has [st: null] when the sender's [st] is; in both the
    field is written out by [JSON.stringify].  When the sender's [s] is not
    a number the relayed frame has no [s]. *)
Theorem relay_payload_defaults (r : Room) (w : WebSocket) (meta : Meta)
    (message : Message) (data : jsval) :
  state r !! w = Some meta ->
  JSON_parse (Message_toString message) = Some data ->
  let out := log_of (webSocketMessage w message) r in
  (get data (lit "t") = Some (JStr (lit "in")) ->
   let frame := payload_in (slot meta) data in
   (forall w' f, In (Send w' f) out -> f = frame)
   /\ (read data (lit "i") = JUndefined \/ read data (lit "i") = JNull ->
       get frame (lit "i") = Some JNull
       /\ In (lit "i", JNull) (stringified_props frame))
   /\ (is_number (read data (lit "s")) = false ->
       frame = JObj [(lit "t", JStr (lit "in"));
                     (lit "slot", JNum (num (slot meta)));
                     (lit "i", nullish_or_null (read data (lit "i")))]
       /\ get frame (lit "s") = Some JUndefined))
  /\ (get data (lit "t") = Some (JStr (lit "snap")) ->
      let frame := payload_snap data in
      (forall w' f, In (Send w' f) out -> f = frame)
      /\ (read data (lit "st") = JUndefined \/ read data (lit "st") = JNull ->
          get frame (lit "st") = Some JNull
          /\ In (lit "st", JNull) (stringified_props frame))
      /\ (is_number (read data (lit "s")) = false ->
          frame = JObj [(lit "t", JStr (lit "snap"));
                        (lit "st", nullish_or_null (read data (lit "st")))]
          /\ get frame (lit "s") = Some JUndefined)).
Proof.
  intros Hmeta Hparse out. split; intros Ht frame.
  - split.
    { intros w' f Hin. unfold out, log_of in Hin.
      rewrite (webSocketMessage_in _ _ _ _ _ Hmeta Hparse Ht) in Hin.
      cbn [snd] in Hin. apply in_map_iff in Hin as [w'' [Heq _]].
      injection Heq as _ <-. reflexivity. }
    split.
    + intros Hi. unfold frame, payload_in, with_s.
      assert (nullish_or_null (read data (lit "i")) = JNull) as ->
        by (destruct Hi as [-> | ->]; reflexivity).
      destruct (is_number (read data (lit "s"))); split;
        try reflexivity; cbn; auto.
    + intros Hs. unfold frame, payload_in, with_s. rewrite Hs.
      split; reflexivity.
  - split.
    { intros w' f Hin. unfold out, log_of in Hin.
      rewrite (webSocketMessage_snap _ _ _ _ _ Hmeta Hparse Ht) in Hin.
      cbn [snd] in Hin. apply in_map_iff in Hin as [w'' [Heq _]].
      injection Heq as _ <-. reflexivity. }
    split.
    + intros Hst. unfold frame, payload_snap, with_s.
      assert (nullish_or_null (read data (lit "st")) = JNull) as ->
        by (destruct Hst as [-> | ->]; reflexivity).
      destruct (is_number (read data (lit "s"))); split;
        try reflexivity; cbn; auto.
    + intros Hs. unfold frame, payload_snap, with_s. rewrite Hs.
      split; reflexivity.
Qed.

(** ** Further properties of the handlers *)

Lemma strict_eq_str_false (t : jsval) (s : jsstring) :
  t <> JStr s -> strict_eq_str t s = false.
Proof.
  intros Hne. destruct (strict_eq_str t s) eqn:E; [|reflexivity].
  apply strict_eq_str_true in E. contradiction.
Qed.

(** X1. A [ping] from a bound socket is answered with the single frame
    [{t:"pong", c}] on that socket, [c] being the sender's [c] as it came;
    no other socket is sent anything and the room is unchanged.  When the
    sender gave no [c], the frame written out has no [c] either. *)
Theorem ping_is_answered_to_sender_only (r : Room) (w : WebSocket)
    (meta : Meta) (message : Message) (data : jsval) :
  state r !! w = Some meta ->
  JSON_parse (Message_toString message) = Some data ->
  get data (lit "t") = Some (JStr (lit "ping")) ->
  let out := log_of (webSocketMessage w message) r in
  let frame := frame_pong (read data (lit "c")) in
  out = [Send w frame]
  /\ (forall w', w' <> w -> sent_to w' out = [])
  /\ room_after (webSocketMessage w message) r = r
  /\ (read data (lit "c") = JUndefined ->
      stringified_props frame = [(lit "t", JStr (lit "pong"))])
  /\ (read data (lit "c") <> JUndefined ->
      stringified_props frame
      = [(lit "t", JStr (lit "pong")); (lit "c", read data (lit "c"))]).
Proof.
  intros Hmeta Hparse Ht out frame.
  pose proof (webSocketMessage_ping w meta message data r Hmeta Hparse Ht) as Hrun.
  unfold out, log_of, room_after. rewrite Hrun. cbn [fst snd].
  split; [reflexivity|]. split.
  { intros w' Hne. unfold sent_to. cbn [flat_map].
    destruct (Nat.eqb_spec w w') as [Heq|_]; [congruence|reflexivity]. }
  split; [reflexivity|]. unfold frame, frame_pong. split.
  - intros ->. reflexivity.
  - intros Hc. destruct (read data (lit "c")); try reflexivity. contradiction.
Qed.

(** X2. A message whose [t] is none of [join], [ping], [in], [snap] (the
    case of every number, string, boolean and array, whose [t] is
    [undefined]) is dropped: nothing is sent and the room is unchanged. *)
Theorem unrecognised_message_is_ignored (r : Room) (w : WebSocket)
    (meta : Meta) (message : Message) (data t : jsval) :
  state r !! w = Some meta ->
  JSON_parse (Message_toString message) = Some data ->
  get data (lit "t") = Some t ->
  t <> JStr (lit "join") -> t <> JStr (lit "ping") ->
  t <> JStr (lit "in") -> t <> JStr (lit "snap") ->
  webSocketMessage w message r = (tt, r, []).
Proof.
  intros Hmeta Hparse Ht H1 H2 H3 H4.
  apply (webSocketMessage_ignored w meta message data t r Hmeta Hparse Ht);
    apply strict_eq_str_false; assumption.
Qed.

(** X3. A message that parses to [null] is not reported as [BAD_JSON]:
    reading its [t] throws, so the handler ends with an uncaught
    [TypeError], sends no frame to anyone and leaves the room unchanged. *)
Theorem null_message_throws (r : Room) (w : WebSocket) (meta : Meta)
    (message : Message) :
  state r !! w = Some meta ->
  JSON_parse (Message_toString message) = Some JNull ->
  let out := log_of (webSocketMessage w message) r in
  out = [Uncaught_TypeError]
  /\ (forall w', sent_to w' out = [])
  /\ room_after (webSocketMessage w message) r = r.
Proof.
  intros Hmeta Hparse out.
  pose proof (webSocketMessage_null w meta message JNull r Hmeta Hparse eq_refl)
    as Hrun.
  unfold out, log_of, room_after. rewrite Hrun.
  split; [reflexivity|]. split; [intros w'; reflexivity|reflexivity].
Qed.

(** X4. The socket of a refused admission is never bound to a seat: in the
    room left by a [ROOM_FULL] rejection, a message, a close or an error
    delivered for that socket sends nothing and changes nothing. *)
Theorem rejected_socket_is_inert (r : Room) (request : Request)
    (message : Message) :
  reachable r ->
  not_websocket (Upgrade request) = false ->
  (forall k, 0 <= k < 4 -> occupied r k) ->
  let server := S (fresh r) in
  let r' := room_after (fetch request) r in
  webSocketMessage server message r' = (tt, r', [])
  /\ webSocketClose server r' = (tt, r', [])
  /\ webSocketError server r' = (tt, r', []).
Proof.
  intros Hreach Hup Hall server r'.
  pose proof (reachable_consistent r Hreach) as Hr.
  assert (state r' !! server = None) as Hnone.
  { unfold r', room_after.
    rewrite (fetch_room_full request r Hup (full_allocSlot r Hall)).
    cbn [fst snd state].
    destruct (state r !! server) as [meta|] eqn:E; [|reflexivity].
    destruct (meta_entry r Hr server meta E) as [Hlt _].
    unfold server in Hlt. lia. }
  split; [apply webSocketMessage_unbound, Hnone|].
  split; apply webSocketClose_unbound, Hnone.
Qed.

(** X5. A request whose [Upgrade] header is missing, empty or, in lower
    case, not [websocket] is answered 426 with the text [Expected
    websocket]; no socket pair is created, nothing is logged and the room is
    unchanged. *)
Theorem fetch_without_upgrade_is_426 (r : Room) (request : Request) :
  Upgrade request = None \/ Upgrade request = Some []
  \/ (exists u, Upgrade request = Some u /\ toLowerCase u <> lit "websocket") ->
  fetch request r
  = ({| status := 426; body := Some (lit "Expected websocket");
        webSocket := None |}, r, []).
Proof.
  intros H. apply fetch_not_websocket. unfold not_websocket.
  destruct H as [-> | [-> | [u [-> Hu]]]]; try reflexivity.
  destruct u; [reflexivity|]. rewrite bool_decide_eq_false_2 by exact Hu.
  reflexivity.
Qed.

Lemma all_seats_full_size (r : Room) :
  consistent r ->
  (forall k, 0 <= k < 4 -> JsMap.has (sockets r) k = true)
  <-> occupied_seats r = 4%nat.
Proof.
  intros Hr. unfold occupied_seats, JsMap.size.
  rewrite <- (length_map fst (sockets r)).
  assert (incl (JsMap.keys (sockets r)) [0; 1; 2; 3]) as Hincl.
  { intros k Hk. apply in_map_iff in Hk as [[k' w] [Hk' Hin]]. cbn in Hk'.
    subst k'. destruct (seat_entry r Hr k w Hin) as [Hrange _]. cbn. lia. }
  split.
  - intros Hall. apply Nat.le_antisymm.
    + apply (List.NoDup_incl_length (seat_keys r Hr) Hincl).
    + change 4%nat with (length [0; 1; 2; 3]).
      apply List.NoDup_incl_length.
      * repeat constructor; cbn; intuition lia.
      * intros k Hk. apply has_In. apply Hall. cbn in Hk. lia.
  - intros Hlen k Hk. apply has_In.
    apply (List.NoDup_length_incl (l' := [0; 1; 2; 3]) (seat_keys r Hr));
      [|exact Hincl|cbn; lia].
    unfold JsMap.keys. rewrite Hlen. cbn. lia.
Qed.

(** X6. [_allocSlot] answers -1 or a seat of 0..3, and -1 exactly when
    seats 0..3 are all occupied; in a reachable room that is exactly when 4
    seats are occupied. *)
Theorem allocSlot_fails_iff_full (r : Room) :
  reachable r ->
  -1 <= _allocSlot r < 4
  /\ (_allocSlot r = -1 <->
      forall k, 0 <= k < 4 -> JsMap.has (sockets r) k = true)
  /\ (_allocSlot r = -1 <-> occupied_seats r = 4%nat).
Proof.
  intros Hreach. pose proof (reachable_consistent r Hreach) as Hr.
  assert (_allocSlot r = -1 <->
          forall k, 0 <= k < 4 -> JsMap.has (sockets r) k = true) as Hiff.
  { destruct (allocSlot_spec r) as [[H Hall]|[Hk [Hfree _]]].
    - tauto.
    - split; [lia|]. intros Hall. rewrite (Hall _ Hk) in Hfree. discriminate. }
  split; [destruct (allocSlot_spec r) as [[H _]|[H _]]; lia|].
  split; [exact Hiff|]. rewrite Hiff. apply all_seats_full_size, Hr.
Qed.

Lemma listed_seats_length (r : Room) :
  consistent r ->
  length (List.filter (JsMap.has (sockets r)) [0; 1; 2; 3])
  = length (JsMap.keys (sockets r)).
Proof.
  intros Hr. apply Nat.le_antisymm.
  - apply List.NoDup_incl_length.
    + apply List.NoDup_filter. repeat constructor; cbn; intuition lia.
    + intros k Hk. apply filter_In in Hk as [_ Hk]. apply has_In, Hk.
  - apply (List.NoDup_incl_length (seat_keys r Hr)).
    intros k Hk. apply filter_In. split; [|apply has_In, Hk].
    apply in_map_iff in Hk as [[k' w] [Hk' Hin]]. cbn in Hk'. subst k'.
    destruct (seat_entry r Hr k w Hin) as [Hrange _]. cbn. lia.
Qed.

(** X7. In a reachable room the presence listing has exactly one entry per
    session: as many entries as occupied seats, the entry of every seated
    socket's seat with that seat's name, and no entry for a vacant seat. *)
Theorem presence_lists_exactly_the_sessions (r : Room) :
  reachable r ->
  length (_playersList r) = occupied_seats r
  /\ (forall k w, JsMap.get (sockets r) k = Some w ->
        In (player k (names_or_empty r k)) (_playersList r))
  /\ (forall p, In p (_playersList r) ->
        exists k, 0 <= k < 4 /\ JsMap.has (sockets r) k = true
                  /\ p = player k (names_or_empty r k)).
Proof.
  intros Hreach. pose proof (reachable_consistent r Hreach) as Hr.
  split.
  { rewrite playersList_seats, length_map, (listed_seats_length r Hr).
    unfold occupied_seats, JsMap.size, JsMap.keys. apply length_map. }
  split.
  - intros k w Hget. apply playersList_In; [|exact (get_has _ _ _ Hget)].
    exact (proj1 (seat_entry r Hr k w (get_In _ _ _ Hget))).
  - intros p Hp. rewrite playersList_seats in Hp.
    apply in_map_iff in Hp as [k [<- Hk]]. apply filter_In in Hk as [Hk Hhas].
    exists k. split; [cbn in Hk; lia|]. split; [exact Hhas|reflexivity].
Qed.

(** ** Sessions over the events of a room *)

Lemma moves_binding (r r' : Room) (e : event) (w : WebSocket) (meta : Meta) :
  consistent r -> moves r e r' ->
  state r !! w = Some meta -> state r' !! w = Some meta.
Proof.
  intros Hr Hmove Hw.
  destruct Hmove as [e|request|request k Hk Hfree|w0 message meta0 name Hw0 Hlen
                     |e w0 meta0 He Hw0]; cbn [state]; try exact Hw.
  rewrite lookup_insert_ne; [exact Hw|].
  destruct (meta_entry r Hr w meta Hw) as [Hlt _]. lia.
Qed.

Lemma run_binding (evs : list event) (r : Room) (w : WebSocket) (meta : Meta) :
  consistent r ->
  state r !! w = Some meta -> state (run evs r) !! w = Some meta.
Proof.
  revert r. induction evs as [|e evs IH]; intros r Hr Hw; [exact Hw|].
  cbn [run fold_left]. apply IH.
  - exact (moves_consistent _ _ _ Hr (handle_moves e r)).
  - exact (moves_binding _ _ _ _ _ Hr (handle_moves e r) Hw).
Qed.

(** X8. The seat a socket is bound to never changes and is never forgotten:
    whatever events a reachable room handles next, the metadata of a bound
    socket stays what it was. *)
Theorem seat_binding_never_changes (r : Room) (evs : list event)
    (w : WebSocket) (meta : Meta) :
  reachable r ->
  state r !! w = Some meta ->
  state (run evs r) !! w = Some meta.
Proof.
  intros Hreach Hw. apply run_binding; [|exact Hw].
  apply reachable_consistent, Hreach.
Qed.

Lemma moves_seat (r r' : Room) (e : event) (w : WebSocket) (k : Z) :
  moves r e r' ->
  (forall w' meta, e = EClose w' \/ e = EError w' ->
                   state r !! w' = Some meta -> slot meta <> k) ->
  JsMap.get (sockets r) k = Some w -> JsMap.get (sockets r') k = Some w.
Proof.
  intros Hmove Hother Hseat.
  destruct Hmove as [e|request|request j Hj Hfree|w0 message meta0 name Hw0 Hlen
                     |e w0 meta0 He Hw0]; cbn [sockets]; try exact Hseat.
  - rewrite get_app_new, Hseat. reflexivity.
  - rewrite get_delete_ne; [exact Hseat|].
    intros Heq. exact (Hother w0 meta0 He Hw0 (eq_sym Heq)).
Qed.

(** X9. Only the close or error of a socket bound to seat [k] takes the
    session of seat [k] out of the room: after any other event of a
    reachable room (an admission, a refusal, any message of any socket, the
    disconnection of another seat) the session is still seated at [k]. *)
Theorem other_events_leave_session_seated (r : Room) (e : event)
    (w : WebSocket) (k : Z) :
  reachable r ->
  session_at r w k ->
  (forall w' meta, e = EClose w' \/ e = EError w' ->
                   state r !! w' = Some meta -> slot meta <> k) ->
  session_at (room_after (handle e) r) w k.
Proof.
  intros Hreach [Hseat Hmeta] Hother.
  pose proof (reachable_consistent r Hreach) as Hr. split.
  - exact (moves_seat _ _ _ _ _ (handle_moves e r) Hother Hseat).
  - exact (moves_binding _ _ _ _ _ Hr (handle_moves e r) Hmeta).
Qed.

Lemma run_settled_by (evs : list event) (closed : list WebSocket) (r : Room) :
  consistent r -> settled closed r ->
  orderly_from closed evs = true ->
  settled (closed_by closed evs) (run evs r).
Proof.
  revert closed r. induction evs as [|e evs IH]; intros closed r Hr Hs Hord.
  - exact Hs.
  - cbn [orderly_from] in Hord. apply andb_true_iff in Hord as [Hdel Hord].
    cbn [run fold_left closed_by].
    apply (IH (closed_after closed e)); [| |exact Hord].
    + exact (moves_consistent _ _ _ Hr (handle_moves e r)).
    + exact (moves_settled _ _ _ _ Hr Hs Hdel (handle_moves e r)).
Qed.

(** X10. When nothing is delivered for a socket after its close or error,
    every socket that was admitted and has not been closed since is still
    the session of the seat it was admitted to. *)
Theorem open_sessions_hold_their_seats (evs : list event) (w : WebSocket)
    (meta : Meta) :
  orderly evs = true ->
  state (run evs new_Room) !! w = Some meta ->
  ~ In w (closed_by [] evs) ->
  session_at (run evs new_Room) w (slot meta).
Proof.
  intros Hord Hw Hopen.
  pose proof (run_settled_by evs [] new_Room consistent_new_Room
                settled_new_Room Hord) as Hs.
  split; [exact (live_seat _ _ Hs w meta Hw Hopen)|].
  destruct meta. exact Hw.
Qed.

(** X11. When the session of seat [k] disconnects, every session left in a
    reachable room is sent exactly two frames, [{t:"leave", slot:k}] and then
    the presence listing of the room without seat [k]; the socket that
    disconnected is sent nothing. *)
Theorem remaining_sessions_get_leave_then_presence (r : Room)
    (w : WebSocket) (k : Z) :
  reachable r ->
  session_at r w k ->
  let r' := room_after (webSocketClose w) r in
  let out := log_of (webSocketClose w) r in
  let leave := JObj [(lit "t", JStr (lit "leave"));
                     (lit "slot", JNum (num k))] in
  let presence := JObj [(lit "t", JStr (lit "presence"));
                        (lit "players", JArr (_playersList r'))] in
  sent_to w out = []
  /\ forall w', In w' (JsMap.values (sockets r)) -> w' <> w ->
       sent_to w' out = [leave; presence].
Proof.
  intros Hreach Hsession r' out leave presence.
  assert (leave = frame_leave k) as Hleave by reflexivity.
  assert (presence = frame_presence (_playersList r')) as Hpresence
    by reflexivity.
  clearbody leave presence. subst leave presence.
  pose proof (reachable_consistent r Hreach) as Hr.
  pose proof (webSocketClose_run w _ r (proj2 Hsession)) as Hrun.
  cbv zeta in Hrun. cbn [slot sockets] in Hrun.
  unfold out, r', log_of, room_after. rewrite Hrun. cbn [fst snd].
  split.
  - rewrite sent_to_app.
    assert (~ In w (JsMap.values (JsMap.delete (sockets r) k))) as Hgone.
    { intros Hin. apply (others_of_session r w k w Hr Hsession) in Hin.
      tauto. }
    rewrite !sent_to_absent by exact Hgone. reflexivity.
  - intros w' Hin Hne. rewrite sent_to_app.
    assert (In w' (JsMap.values (JsMap.delete (sockets r) k))) as Hleft
      by (apply (others_of_session r w k w' Hr Hsession); auto).
    pose proof (NoDup_values_delete _ k (seat_sockets r Hr)) as Hnd.
    rewrite !sent_to_once by assumption. reflexivity.
Qed.

(** ** What a handler logs *)

Lemma values_delete_incl (m : list (Z * WebSocket)) (k : Z) (w : WebSocket) :
  In w (JsMap.values (JsMap.delete m k)) -> In w (JsMap.values m).
Proof.
  unfold JsMap.values. rewrite !in_map_iff.
  intros [[j w'] [Hw Hin]]. apply In_delete in Hin as [Hin _].
  exists (j, w'). auto.
Qed.

Lemma log_of_then_ret {A : Type} (c : M A) (r : Room) :
  log_of (c ;; mret tt) r = log_of c r.
Proof. unfold log_of, mbind, M_bind. cbn. apply app_nil_r. Qed.

(** The entries of the log of a message: the uncaught exception, a frame to
    the sender, or a frame to a seated socket. *)
Lemma webSocketMessage_log (w : WebSocket) (message : Message) (r : Room)
    (x : effect) :
  In x (log_of (webSocketMessage w message) r) ->
  x = Uncaught_TypeError
  \/ exists w' f, x = Send w' f
                  /\ (w' = w \/ In w' (JsMap.values (sockets r))).
Proof.
  unfold log_of.
  destruct (state r !! w) as [meta|] eqn:Hmeta;
    [|rewrite webSocketMessage_unbound by exact Hmeta; intros []].
  destruct (JSON_parse (Message_toString message)) as [data|] eqn:Hparse.
  2:{ rewrite (webSocketMessage_bad_json _ _ _ _ Hmeta Hparse).
      intros [<-|[]]. right. eauto. }
  destruct (get data (lit "t")) as [t|] eqn:Ht.
  2:{ rewrite (webSocketMessage_null _ _ _ _ _ Hmeta Hparse Ht).
      intros [<-|[]]. left. reflexivity. }
  destruct (strict_eq_str t (lit "join")) eqn:H1.
  { apply strict_eq_str_true in H1. subst t.
    rewrite (webSocketMessage_join _ _ _ _ _ Hmeta Hparse Ht). cbn [snd].
    intros Hin. apply in_app_or in Hin as [Hin|[<-|[]]]; right.
    - apply in_map_iff in Hin as [w' [<- Hin]]. eauto.
    - eauto. }
  destruct (strict_eq_str t (lit "ping")) eqn:H2.
  { apply strict_eq_str_true in H2. subst t.
    rewrite (webSocketMessage_ping _ _ _ _ _ Hmeta Hparse Ht).
    intros [<-|[]]. right. eauto. }
  destruct (strict_eq_str t (lit "in")) eqn:H3.
  { apply strict_eq_str_true in H3. subst t.
    rewrite (webSocketMessage_in _ _ _ _ _ Hmeta Hparse Ht). cbn [snd].
    intros Hin. apply in_map_iff in Hin as [w' [<- Hin]]. right.
    apply values_delete_incl in Hin. eauto. }
  destruct (strict_eq_str t (lit "snap")) eqn:H4.
  { apply strict_eq_str_true in H4. subst t.
    rewrite (webSocketMessage_snap _ _ _ _ _ Hmeta Hparse Ht). cbn [snd].
    intros Hin. apply in_map_iff in Hin as [w' [<- Hin]]. right.
    apply values_delete_incl in Hin. eauto. }
  rewrite (webSocketMessage_ignored _ _ _ _ _ _ Hmeta Hparse Ht H1 H2 H3 H4).
  intros [].
Qed.

(** The entries of the log of a disconnection: frames to seated sockets. *)
Lemma webSocketClose_log (w : WebSocket) (r : Room) (x : effect) :
  In x (log_of (webSocketClose w) r) ->
  exists w' f, x = Send w' f /\ In w' (JsMap.values (sockets r)).
Proof.
  unfold log_of.
  destruct (state r !! w) as [meta|] eqn:Hmeta;
    [|rewrite webSocketClose_unbound by exact Hmeta; intros []].
  rewrite (webSocketClose_run _ _ _ Hmeta). cbn [snd sockets].
  intros Hin. apply in_app_or in Hin as [Hin|Hin];
    apply in_map_iff in Hin as [w' [<- Hin]];
    apply values_delete_incl in Hin; eauto.
Qed.

(** The entries of the log of an upgrade: calls on the new socket, the
    close among them only when no seat is left, or frames to the sockets
    seated before. *)
Lemma fetch_log (request : Request) (r : Room) (x : effect) :
  In x (log_of (fetch request) r) ->
  x = Accept (S (fresh r))
  \/ (exists f, x = Send (S (fresh r)) f)
  \/ (x = Close (S (fresh r)) 1008 (lit "room full") /\ _allocSlot r = -1)
  \/ exists w' f, x = Send w' f /\ In w' (JsMap.values (sockets r)).
Proof.
  unfold log_of.
  destruct (not_websocket (Upgrade request)) eqn:Hup;
    [rewrite fetch_not_websocket by exact Hup; intros []|].
  destruct (allocSlot_spec r) as [[Hfull _]|[Hk [Hfree _]]].
  - rewrite fetch_room_full by assumption. cbn [snd].
    intros [<-|[<-|[<-|[]]]].
    + left. reflexivity.
    + right. left. eexists. reflexivity.
    + right. right. left. split; [reflexivity|exact Hfull].
  - rewrite (fetch_admit request r (_allocSlot r) Hup eq_refl) by lia.
    cbn [snd sockets]. rewrite set_new by exact Hfree.
    intros [<-|[<-|Hin]].
    + left. reflexivity.
    + right. left. eexists. reflexivity.
    + apply in_map_iff in Hin as [w' [<- Hin]].
      apply values_delete_incl in Hin. unfold JsMap.values in Hin.
      rewrite map_app in Hin. apply in_app_or in Hin as [Hin|[<-|[]]].
      * right. right. right. exists w'. eexists. split; [reflexivity|exact Hin].
      * right. left. eexists. reflexivity.
Qed.

(** X12. The relay closes a socket in one case only: the socket it has just
    created for an upgrade that finds no seat, with code 1008.  It never
    closes a socket that is, or was, bound to a seat. *)
Theorem only_refused_sockets_are_closed (r : Room) (e : event)
    (w : WebSocket) (code : Z) (reason : jsstring) :
  reachable r ->
  In (Close w code reason) (log_of (handle e) r) ->
  (exists request, e = EFetch request)
  /\ w = S (fresh r) /\ code = 1008 /\ reason = lit "room full"
  /\ _allocSlot r = -1
  /\ state r !! w = None
  /\ ~ In w (JsMap.values (sockets r)).
Proof.
  intros Hreach Hin. pose proof (reachable_consistent r Hreach) as Hr.
  assert ((exists request, e = EFetch request)
          /\ Close w code reason = Close (S (fresh r)) 1008 (lit "room full")
          /\ _allocSlot r = -1) as (He & Heq & Hfull).
  { destruct e as [request|w0 message|w0|w0]; cbn [handle] in Hin.
    - rewrite log_of_then_ret in Hin.
      apply fetch_log in Hin as [H|[[f H]|[[H Hfull]|(w' & f & H & _)]]];
        try discriminate. eauto.
    - apply webSocketMessage_log in Hin as [H|(w' & f & H & _)]; discriminate.
    - apply webSocketClose_log in Hin as (w' & f & H & _). discriminate.
    - apply webSocketClose_log in Hin as (w' & f & H & _). discriminate. }
  injection Heq as -> -> ->.
  split; [exact He|]. repeat split; try reflexivity; try exact Hfull.
  - destruct (state r !! S (fresh r)) as [meta|] eqn:E; [|reflexivity].
    destruct (meta_entry r Hr _ meta E) as [Hlt _]. lia.
  - intros Hseated. apply in_map_iff in Hseated as [[k w'] [Hw Hseated]].
    cbn in Hw. subst w'. destruct (seat_entry r Hr k _ Hseated) as (_ & Hlt & _).
    lia.
Qed.

(** X13. A handler sends frames only to sockets seated in the room when the
    event arrives, to the socket whose message it is handling, or to the
    socket it has just created for an upgrade: a socket that has left the
    seat map is sent nothing by the events of others. *)
Theorem frames_go_to_sessions_only (r : Room) (e : event) (w : WebSocket)
    (frame : jsval) :
  In (Send w frame) (log_of (handle e) r) ->
  In w (JsMap.values (sockets r))
  \/ (exists message, e = EMessage w message)
  \/ (exists request, e = EFetch request /\ w = S (fresh r)).
Proof.
  intros Hin. destruct e as [request|w0 message|w0|w0]; cbn [handle] in Hin.
  - rewrite log_of_then_ret in Hin.
    apply fetch_log in Hin as [H|[[f H]|[[H _]|(w' & f & H & Hseated)]]];
      try discriminate.
    + injection H as -> _. right. right. eauto.
    + injection H as -> _. left. exact Hseated.
  - apply webSocketMessage_log in Hin as [H|(w' & f & H & Hw')];
      [discriminate|]. injection H as -> _.
    destruct Hw' as [->|Hseated]; [right; left; eauto|left; exact Hseated].
  - apply webSocketClose_log in Hin as (w' & f & H & Hseated).
    injection H as -> _. left. exact Hseated.
  - apply webSocketClose_log in Hin as (w' & f & H & Hseated).
    injection H as -> _. left. exact Hseated.
Qed.

(** ** Admissions and departures *)

(** An admission, with the seat map and the recipients written out. *)
Lemma fetch_admit_seated (request : Request) (r : Room) :
  not_websocket (Upgrade request) = false ->
  _allocSlot r <> -1 ->
  let k := _allocSlot r in
  let server := S (fresh r) in
  let r' := {| sockets := sockets r ++ [(k, server)]; names := names r;
               state := <[server := {| slot := k |}]> (state r);
               fresh := S server |} in
  0 <= k < 4 /\ JsMap.has (sockets r) k = false
  /\ fetch request r
     = ({| status := 101; body := None; webSocket := Some (fresh r) |}, r',
        Accept server
        :: Send server (frame_welcome k (_playersList r'))
        :: map (fun w => Send w (frame_join k (names_read r k)))
               (JsMap.values (sockets r))).
Proof.
  intros Hup Hne k server r'.
  destruct (allocSlot_spec r) as [[Hfull _]|[Hk [Hempty _]]]; [contradiction|].
  fold k in Hk, Hempty. split; [exact Hk|]. split; [exact Hempty|].
  pose proof (fetch_admit request r k Hup eq_refl Hne) as Hrun.
  cbv zeta in Hrun. rewrite set_new in Hrun by exact Hempty.
  assert (JsMap.delete (sockets r ++ [(k, server)]) k = sockets r) as Hothers.
  { unfold JsMap.delete. rewrite List.filter_app. cbn. rewrite Z.eqb_refl. cbn.
    rewrite app_nil_r. apply (delete_absent _ _ Hempty). }
  cbn [sockets] in Hrun. fold server in Hrun. rewrite Hothers in Hrun.
  exact Hrun.
Qed.

Lemma length_delete (m : list (Z * WebSocket)) (k : Z) :
  List.NoDup (JsMap.keys m) -> JsMap.has m k = true ->
  S (length (JsMap.delete m k)) = length m.
Proof.
  unfold JsMap.has, JsMap.delete.
  induction m as [|[k' w'] m IH]; cbn; [discriminate|].
  intros Hnd Hhas. apply List.NoDup_cons_iff in Hnd as [Hk' Hnd].
  destruct (k' =? k) eqn:E; cbn.
  - apply Z.eqb_eq in E. subst k'. f_equal.
    pose proof (delete_absent m k (proj2 (has_false_In m k) Hk')) as Hsame.
    unfold JsMap.delete in Hsame. rewrite Hsame. reflexivity.
  - f_equal. apply IH; assumption.
Qed.

Lemma moves_message_sockets (r r' : Room) (w : WebSocket) (message : Message) :
  moves r (EMessage w message) r' -> sockets r' = sockets r.
Proof.
  intros Hmove. remember (EMessage w message) as e eqn:He.
  destruct Hmove as [e|request|request k Hk Hfree|w0 message0 meta name Hw0 Hlen
                     |e w0 meta Hev Hw0]; try reflexivity; try discriminate.
  destruct Hev as [-> | ->]; discriminate.
Qed.

(** X14. The number of occupied seats of a reachable room goes up by one
    with an admission, down by one with the disconnection of a session, and
    is left as it is by every message. *)
Theorem occupancy_changes_by_one (r : Room) :
  reachable r ->
  (forall request,
     not_websocket (Upgrade request) = false -> _allocSlot r <> -1 ->
     occupied_seats (room_after (fetch request) r) = S (occupied_seats r))
  /\ (forall w message,
        occupied_seats (room_after (webSocketMessage w message) r)
        = occupied_seats r)
  /\ (forall w k, session_at r w k ->
        S (occupied_seats (room_after (webSocketClose w) r))
        = occupied_seats r).
Proof.
  intros Hreach. pose proof (reachable_consistent r Hreach) as Hr.
  unfold occupied_seats, JsMap.size. split.
  { intros request Hup Hne.
    destruct (fetch_admit_seated request r Hup Hne) as (_ & _ & Hrun).
    unfold room_after. rewrite Hrun. cbn [fst snd sockets].
    rewrite length_app. cbn. lia. }
  split.
  { intros w message.
    rewrite (moves_message_sockets _ _ _ _ (webSocketMessage_moves w message r)).
    reflexivity. }
  intros w k [Hseat Hmeta].
  unfold room_after. rewrite (webSocketClose_run w _ r Hmeta).
  cbn [fst snd sockets slot].
  apply length_delete; [exact (seat_keys r Hr)|exact (get_has _ _ _ Hseat)].
Qed.

Lemma playersList_ext (r1 r2 : Room) :
  sockets r1 = sockets r2 -> names r1 = names r2 ->
  _playersList r1 = _playersList r2.
Proof.
  intros Hs Hn. rewrite !playersList_seats. unfold names_or_empty.
  rewrite Hs, Hn. reflexivity.
Qed.

(** X15. An admission followed at once by the disconnection of the admitted
    socket gives back the seat map as it was, with the name of the seat
    cleared; when that name was empty already, the names and the presence
    listing are as before too. *)
Theorem admit_then_disconnect_restores_seats (r : Room) (request : Request) :
  not_websocket (Upgrade request) = false ->
  _allocSlot r <> -1 ->
  let k := _allocSlot r in
  let r1 := room_after (fetch request) r in
  let r2 := room_after (webSocketClose (S (fresh r))) r1 in
  sockets r2 = sockets r
  /\ names r2 = <[k := []]> (names r)
  /\ (names r !! k = Some [] ->
      names r2 = names r /\ _playersList r2 = _playersList r).
Proof.
  intros Hup Hne k r1 r2.
  destruct (fetch_admit_seated request r Hup Hne) as (_ & Hempty & Hrun).
  fold k in Hempty, Hrun.
  assert (state r1 !! S (fresh r) = Some {| slot := k |}) as Hmeta.
  { unfold r1, room_after. rewrite Hrun. cbn [fst snd state].
    apply lookup_insert_eq. }
  pose proof (webSocketClose_run _ _ r1 Hmeta) as Hclose. cbv zeta in Hclose.
  assert (sockets r2 = sockets r /\ names r2 = <[k := []]> (names r))
    as [Hs Hn].
  { unfold r2, room_after. rewrite Hclose. cbn [fst snd sockets names slot].
    unfold r1, room_after. rewrite Hrun. cbn [fst snd sockets names].
    split; [|reflexivity].
    unfold JsMap.delete. rewrite List.filter_app. cbn. rewrite Z.eqb_refl. cbn.
    rewrite app_nil_r. apply (delete_absent _ _ Hempty). }
  split; [exact Hs|]. split; [exact Hn|].
  intros Hname. assert (names r2 = names r) as Hn'.
  { rewrite Hn. apply insert_id. exact Hname. }
  split; [exact Hn'|]. apply playersList_ext; assumption.
Qed.

Lemma allocSlot_unique (r : Room) (s : Z) :
  0 <= s < 4 -> JsMap.has (sockets r) s = false ->
  (forall j, 0 <= j < s -> JsMap.has (sockets r) j = true) ->
  _allocSlot r = s.
Proof.
  intros Hs Hfree Hbelow.
  destruct (allocSlot_spec r) as [[_ Hall]|[Hk [Hempty Hlow]]].
  - rewrite (Hall s Hs) in Hfree. discriminate.
  - destruct (Z.lt_trichotomy (_allocSlot r) s) as [Hlt|[Heq|Hgt]].
    + rewrite Hbelow in Hempty by lia. discriminate.
    + exact Heq.
    + rewrite Hlow in Hfree by lia. discriminate.
Qed.

(** X16. A seat that is vacated is the next one assigned unless a lower seat
    is empty: after the disconnection of a socket bound to seat [k],
    [_allocSlot] answers [k] when the room was full, and the lower of [k] and
    its former answer otherwise. *)
Theorem vacated_seat_is_reused (r : Room) (w : WebSocket) (meta : Meta) :
  reachable r ->
  state r !! w = Some meta ->
  _allocSlot (room_after (webSocketClose w) r)
  = if _allocSlot r =? -1 then slot meta
    else Z.min (slot meta) (_allocSlot r).
Proof.
  intros Hreach Hmeta. pose proof (reachable_consistent r Hreach) as Hr.
  destruct (meta_entry r Hr w meta Hmeta) as [_ Hk].
  unfold room_after. rewrite (webSocketClose_run w meta r Hmeta). cbn [fst snd].
  set (r' := {| sockets := JsMap.delete (sockets r) (slot meta);
                names := <[slot meta := []]> (names r);
                state := state r; fresh := fresh r |}).
  assert (forall j, JsMap.has (sockets r') j
                    = JsMap.has (sockets r) j && negb (j =? slot meta)) as Hhas
    by (intros j; apply has_delete).
  destruct (allocSlot_spec r) as [[Hfull Hall]|[Hs [Hempty Hlow]]].
  - rewrite Hfull. change (-1 =? -1) with true. cbv iota.
    apply allocSlot_unique; [exact Hk| |].
    + rewrite Hhas, Z.eqb_refl. apply andb_false_r.
    + intros j Hj. rewrite Hhas, Hall by lia.
      cbn [andb]. apply negb_true_iff, Z.eqb_neq. lia.
  - destruct (_allocSlot r =? -1) eqn:E; [apply Z.eqb_eq in E; lia|].
    apply allocSlot_unique.
    + lia.
    + rewrite Hhas. destruct (Z.min_spec (slot meta) (_allocSlot r))
        as [[_ ->]|[_ ->]].
      * rewrite Z.eqb_refl. apply andb_false_r.
      * rewrite Hempty. reflexivity.
    + intros j Hj. rewrite Hhas, Hlow by lia.
      cbn [andb]. apply negb_true_iff, Z.eqb_neq. lia.
Qed.

(** X17. When nothing is delivered for a socket after its close or error,
    a new occupant never inherits a name: the seat it is given has the empty
    name, so the [join] notice sent to the others and the entry of the seat
    in its [welcome] listing both carry the empty string. *)
Theorem new_occupant_starts_unnamed (r : Room) (request : Request) :
  reachable_orderly r ->
  not_websocket (Upgrade request) = false ->
  _allocSlot r <> -1 ->
  let k := _allocSlot r in
  let server := S (fresh r) in
  let r' := room_after (fetch request) r in
  let welcome := JObj [(lit "t", JStr (lit "welcome"));
                       (lit "slot", JNum (num k));
                       (lit "players", JArr (_playersList r'))] in
  let notice := JObj [(lit "t", JStr (lit "join"));
                      (lit "slot", JNum (num k));
                      (lit "name", JStr [])] in
  names r !! k = Some []
  /\ In (JObj [(lit "slot", JNum (num k)); (lit "name", JStr [])])
        (_playersList r')
  /\ log_of (fetch request) r
     = Accept server
       :: Send server welcome
       :: map (fun w => Send w notice) (JsMap.values (sockets r)).
Proof.
  intros [evs [Hord <-]] Hup Hne. set (r := run evs new_Room).
  intros k server r' welcome notice.
  assert (welcome = frame_welcome k (_playersList r')) as Hwelcome
    by reflexivity.
  assert (notice = frame_join k (JStr [])) as Hnotice by reflexivity.
  clearbody welcome notice. subst welcome notice.
  change (JObj [(lit "slot", JNum (num k)); (lit "name", JStr [])])
    with (player k []).
  destruct (run_settled evs [] new_Room consistent_new_Room settled_new_Room Hord)
    as [closed Hs]. fold r in Hs.
  destruct (fetch_admit_seated request r Hup Hne) as (Hk & Hempty & Hrun).
  fold k in Hk, Hempty, Hrun. fold server in Hrun.
  pose proof (vacant_name _ _ Hs k Hk Hempty) as Hname.
  assert (names_read r k = JStr []) as Hread
    by (unfold names_read; rewrite Hname; reflexivity).
  split; [exact Hname|].
  unfold r', room_after, log_of. rewrite Hrun. cbn [fst snd]. split.
  - set (r1 := {| sockets := sockets r ++ [(k, server)]; names := names r;
                  state := <[server := {| slot := k |}]> (state r);
                  fresh := S server |}).
    assert (names_or_empty r1 k = []) as <-
      by (unfold names_or_empty, r1; cbn [names]; rewrite Hname; reflexivity).
    apply playersList_In; [exact Hk|]. unfold r1. cbn [sockets].
    rewrite has_app_new, Z.eqb_refl. apply orb_true_r.
  - rewrite Hread. reflexivity.
Qed.

(** ** Rooms behind the worker *)

Lemma instance_insert (rooms : gmap (list N) Room) (id roomId : jsstring)
    (r : Room) :
  instance (<[id := r]> rooms) roomId
  = if bool_decide (id = roomId) then r else instance rooms roomId.
Proof.
  unfold instance. destruct (bool_decide_reflect (id = roomId)) as [->|Hne].
  - rewrite lookup_insert_eq. reflexivity.
  - rewrite lookup_insert_ne by exact Hne. reflexivity.
Qed.

Lemma instance_deliver (rooms : gmap (list N) Room) (id roomId : jsstring)
    (e : event) :
  instance (deliver id e rooms) roomId
  = run (if bool_decide (id = roomId) then [e] else []) (instance rooms roomId).
Proof.
  unfold deliver. rewrite instance_insert.
  destruct (bool_decide_reflect (id = roomId)) as [->|Hne]; reflexivity.
Qed.

Lemma run_app (evs1 evs2 : list event) (r : Room) :
  run (evs1 ++ evs2) r = run evs2 (run evs1 r).
Proof. unfold run. apply fold_left_app. Qed.

(** X18. Rooms are independent: after any sequence of requests to the
    worker and of socket events, the state of the room of a given name is
    what that room reaches on its own from the upgrade requests made to
    [/ws] under its name and the events of its own sockets, in the same
    order.  Requests to other paths and everything addressed to other rooms
    have no effect on it. *)
Theorem rooms_are_independent (evs : list world_event)
    (rooms : gmap (list N) Room) (roomId : jsstring) :
  instance (world_run evs rooms) roomId
  = run (events_of roomId evs) (instance rooms roomId).
Proof.
  revert rooms. induction evs as [|ev evs IH]; intros rooms; [reflexivity|].
  cbn [world_run fold_left]. fold (world_run evs (world_handle ev rooms)).
  rewrite IH. unfold events_of. cbn [flat_map]. rewrite run_app. f_equal.
  destruct ev as [now request|id w message|id w|id w]; cbn [world_handle];
    try apply instance_deliver.
  unfold worker_fetch.
  destruct (bool_decide_reflect (pathname request = lit "/health")) as [Hh|Hh].
  { cbn [fst snd]. rewrite bool_decide_eq_false_2; [reflexivity|].
    intros [Hws _]. rewrite Hh in Hws. discriminate. }
  destruct (bool_decide_reflect (pathname request = lit "/ws")) as [Hws|Hws].
  - cbn [fst snd]. rewrite instance_insert.
    destruct (bool_decide_reflect (roomId_of request = roomId)) as [<-|Hne].
    + rewrite bool_decide_eq_true_2 by auto. reflexivity.
    + rewrite bool_decide_eq_false_2 by tauto. reflexivity.
  - cbn [fst snd]. rewrite bool_decide_eq_false_2 by tauto. reflexivity.
Qed.

(** X19. A request to [/ws] whose [room] parameter is missing or empty is
    served by the room named [lobby]: the worker answers it, and changes the
    rooms, exactly as it does the same request with [room=lobby]. *)
Theorem missing_room_is_lobby (now : Z) (request : HttpRequest)
    (rooms : gmap (list N) Room) :
  searchParams_room request = None \/ searchParams_room request = Some [] ->
  worker_fetch now request rooms
  = worker_fetch now {| pathname := pathname request;
                        searchParams_room := Some (lit "lobby");
                        to_room := to_room request |} rooms.
Proof.
  intros Hroom. unfold worker_fetch, roomId_of. cbn [pathname to_room searchParams_room].
  destruct Hroom as [-> | ->]; reflexivity.
Qed.

(** ** Names and listings *)

(** X20. A [join] whose name has at most 24 code units stores the name as
    it is; a longer name is stored cut to its first 24 code units exactly;
    the names of the other seats are untouched. *)
Theorem join_name_is_kept_or_cut (r : Room) (w : WebSocket) (meta : Meta)
    (message : Message) (data : jsval) (s : jsstring) :
  state r !! w = Some meta ->
  JSON_parse (Message_toString message) = Some data ->
  get data (lit "t") = Some (JStr (lit "join")) ->
  read data (lit "name") = JStr s ->
  let r' := room_after (webSocketMessage w message) r in
  ((length s <= 24)%nat -> names r' !! slot meta = Some s)
  /\ ((24 < length s)%nat ->
      exists name rest, s = name ++ rest /\ length name = 24%nat
                        /\ names r' !! slot meta = Some name)
  /\ (forall j, j <> slot meta -> names r' !! j = names r !! j).
Proof.
  intros Hmeta Hparse Ht Hname r'.
  pose proof (webSocketMessage_join w meta message data r Hmeta Hparse Ht) as Hrun.
  cbv zeta in Hrun. rewrite Hname in Hrun.
  assert (names r' = <[slot meta := take 24 s]> (names r)) as ->
    by (unfold r', room_after; rewrite Hrun; reflexivity).
  split.
  { intros Hlen. rewrite lookup_insert_eq, take_ge by lia. reflexivity. }
  split.
  { intros Hlen. exists (take 24 s), (drop 24 s).
    split; [symmetry; apply take_drop|].
    split; [rewrite length_take; lia|apply lookup_insert_eq]. }
  intros j Hj. apply lookup_insert_ne. congruence.
Qed.

(** X21. On a [join] from the session of seat [k] of a reachable room, the
    sender is sent exactly the [join] frame and then the presence listing,
    and every other session exactly the [join] frame. *)
Theorem join_reaches_every_session_once (r : Room) (w : WebSocket) (k : Z)
    (message : Message) (data : jsval) :
  reachable r ->
  session_at r w k ->
  JSON_parse (Message_toString message) = Some data ->
  get data (lit "t") = Some (JStr (lit "join")) ->
  let r' := room_after (webSocketMessage w message) r in
  let out := log_of (webSocketMessage w message) r in
  let notice := JObj [(lit "t", JStr (lit "join"));
                      (lit "slot", JNum (num k));
                      (lit "name", JStr (join_name data))] in
  let presence := JObj [(lit "t", JStr (lit "presence"));
                        (lit "players", JArr (_playersList r'))] in
  sent_to w out = [notice; presence]
  /\ forall w', In w' (JsMap.values (sockets r)) -> w' <> w ->
       sent_to w' out = [notice].
Proof.
  intros Hreach [Hseat Hmeta] Hparse Ht r' out notice0 presence.
  assert (presence = frame_presence (_playersList r')) as Hpresence
    by reflexivity.
  assert (notice0 = frame_join k (JStr (join_name data))) as Hnotice
    by reflexivity.
  clearbody notice0 presence. subst notice0 presence.
  set (notice := frame_join k (JStr (join_name data))).
  pose proof (reachable_consistent r Hreach) as Hr.
  pose proof (webSocketMessage_join w _ message data r Hmeta Hparse Ht) as Hrun.
  cbv zeta in Hrun. cbn [slot] in Hrun. fold (join_name data) in Hrun.
  fold notice in Hrun.
  unfold out, r', log_of, room_after. rewrite Hrun. cbn [fst snd].
  split.
  - rewrite sent_to_app, sent_to_once.
    + unfold sent_to at 1. cbn [flat_map]. rewrite Nat.eqb_refl. reflexivity.
    + exact (seat_sockets r Hr).
    + apply in_map_iff. exists (k, w). split; [reflexivity|apply get_In, Hseat].
  - intros w' Hin Hne. rewrite sent_to_app, sent_to_once by
      (try exact (seat_sockets r Hr); exact Hin).
    unfold sent_to at 1. cbn [flat_map].
    destruct (Nat.eqb_spec w w') as [Heq|_]; [congruence|reflexivity].
Qed.

(** X22. The presence listing is by seat, not by order of arrival: its
    entries are those of a strictly increasing list of occupied seats of
    0..3, each with the name of its seat. *)
Theorem presence_listing_is_by_seat (r : Room) :
  exists seats,
    _playersList r = map (fun i => player i (names_or_empty r i)) seats
    /\ Sorted.StronglySorted Z.lt seats
    /\ forall i, In i seats <-> 0 <= i < 4 /\ JsMap.has (sockets r) i = true.
Proof.
  exists (List.filter (JsMap.has (sockets r)) [0; 1; 2; 3]).
  split; [apply playersList_seats|]. split.
  - cbn [List.filter].
    destruct (JsMap.has (sockets r) 0), (JsMap.has (sockets r) 1),
      (JsMap.has (sockets r) 2), (JsMap.has (sockets r) 3);
      repeat constructor; lia.
  - intros i. rewrite filter_In. cbn [In]. intuition lia.
Qed.

End Handlers.

(** ** The claims on sample inputs *)

(** C1 on a room filled by four admissions: the fifth upgrade is refused on
    its own socket 9. *)
Lemma room_capacity_witness :
  let r := run ascii_toLowerCase sample_parse four_admissions new_Room in
  (occupied_seats r <= 4)%nat
  /\ log_of (fetch ascii_toLowerCase upgrade_request) r
     = [Accept 9%nat;
        Send 9%nat (frame_err "ROOM_FULL" "Room full (max 4).");
        Close 9%nat 1008 (lit "room full")].
Proof.
  intros r.
  destruct (room_capacity ascii_toLowerCase sample_parse r upgrade_request)
    as [Hcap Hfull].
  - exists four_admissions. reflexivity.
  - split; [exact Hcap|].
    destruct Hfull as [Hlog _]; [reflexivity| |exact Hlog].
    intros k Hk.
    assert (k = 0 \/ k = 1 \/ k = 2 \/ k = 3) as [-> | [-> | [-> | ->]]] by lia;
      vm_compute; reflexivity.
Defined.

(** C2 on a room with seats 0 and 1 taken: the next admission gets seat 2. *)
Lemma admission_takes_lowest_empty_seat_witness :
  let r := run ascii_toLowerCase sample_parse two_admissions new_Room in
  _allocSlot r = 2
  /\ JsMap.get (sockets (room_after (fetch ascii_toLowerCase upgrade_request) r)) 2
     = Some 5%nat.
Proof.
  intros r.
  destruct (admission_takes_lowest_empty_seat ascii_toLowerCase r upgrade_request 3)
    as (_ & _ & _ & Hget & _).
  - reflexivity.
  - lia.
  - vm_compute. reflexivity.
  - split; [vm_compute; reflexivity|exact Hget].
Defined.

(** C3 as stated fails. After two admissions seat 0 (socket 1) sends
    [{"t":"snap","st":7}]: the frame relayed to seat 1 (socket 3) is
    [{t:"snap", st:7}], without the sender's seat. *)
Lemma snap_frame_lacks_slot :
  let r := run ascii_toLowerCase sample_parse two_admissions new_Room in
  let frame := JObj [(lit "t", JStr (lit "snap")); (lit "st", JNum (num 7))] in
  session_at r 1%nat 0
  /\ log_of (webSocketMessage sample_parse 1%nat (Text text_snap_st)) r
     = [Send 3%nat frame]
  /\ ~ carries_slot frame 0.
Proof.
  intros r frame. split; [split; vm_compute; reflexivity|].
  split; [vm_compute; reflexivity|].
  unfold carries_slot. vm_compute. discriminate.
Qed.

(** C3 as amended, on the same message. *)
Lemma snap_frame_has_no_slot_witness :
  let r := run ascii_toLowerCase sample_parse two_admissions new_Room in
  get (payload_snap (JObj [(lit "t", JStr (lit "snap")); (lit "st", JNum (num 7))]))
      (lit "slot") = Some JUndefined.
Proof.
  intros r.
  destruct (snap_frame_has_no_slot sample_parse r 1%nat {| slot := 0 |}
              (Text text_snap_st)
              (JObj [(lit "t", JStr (lit "snap")); (lit "st", JNum (num 7))]))
    as (_ & _ & _ & _ & H & _).
  - vm_compute. reflexivity.
  - vm_compute. reflexivity.
  - vm_compute. reflexivity.
  - exact H.
Defined.

(** C4 on seat 1 (socket 3) sending a [join] with the name Al. *)
Lemma join_sets_name_and_announces_witness :
  let r := run ascii_toLowerCase sample_parse two_admissions new_Room in
  let r' := room_after (webSocketMessage sample_parse 3%nat (Text text_join_Al)) r in
  names r' !! 1 = Some (lit "Al")
  /\ In (player 1 (lit "Al")) (_playersList r').
Proof.
  intros r r'.
  destruct (join_sets_name_and_announces sample_parse r 3%nat 1
              (Text text_join_Al)
              (JObj [(lit "t", JStr (lit "join")); (lit "name", JStr (lit "Al"))]))
    as (_ & _ & _ & _ & Hname & _ & _ & _ & _ & Hin).
  - split; vm_compute; reflexivity.
  - vm_compute. reflexivity.
  - vm_compute. reflexivity.
  - split; [exact Hname|]. apply Hin. lia.
Defined.

(** C8 on seat 1 (socket 3) sending an unfinished object. *)
Lemma bad_json_is_reported_to_sender_only_witness :
  let r := run ascii_toLowerCase sample_parse two_admissions new_Room in
  log_of (webSocketMessage sample_parse 3%nat (Text text_malformed)) r
  = [Send 3%nat (frame_err "BAD_JSON" "Invalid JSON")].
Proof.
  intros r.
  destruct (bad_json_is_reported_to_sender_only sample_parse r 3%nat 1
              (Text text_malformed)) as [H _].
  - split; vm_compute; reflexivity.
  - vm_compute. reflexivity.
  - exact H.
Defined.

(** C5 on seat 0 (socket 1) sending an [in] without [i]: seat 1 gets the
    frame, seat 0 nothing. *)
Lemma relay_reaches_others_not_sender_witness :
  let r := run ascii_toLowerCase sample_parse two_admissions new_Room in
  let out := log_of (webSocketMessage sample_parse 1%nat (Text text_in_bare)) r in
  sent_to 3%nat out
  = [JObj [(lit "t", JStr (lit "in")); (lit "slot", JNum (num 0));
           (lit "i", JNull)]]
  /\ sent_to 1%nat out = [].
Proof.
  intros r out.
  destruct (relay_reaches_others_not_sender ascii_toLowerCase sample_parse r
              1%nat 0 (Text text_in_bare) (JObj [(lit "t", JStr (lit "in"))]))
    as (Hothers & Hsender & _).
  - exists two_admissions. reflexivity.
  - split; vm_compute; reflexivity.
  - vm_compute. reflexivity.
  - left. vm_compute. reflexivity.
  - split; [|exact Hsender].
    apply (Hothers 3%nat); [vm_compute; auto|lia].
Defined.

(** C6 on the close of seat 1 (socket 3): seat 0 is told of the leave, then
    of the presence without seat 1. *)
Lemma disconnect_vacates_and_notifies_witness :
  let r := run ascii_toLowerCase sample_parse two_admissions new_Room in
  log_of (webSocketClose 3%nat) r
  = [Send 1%nat (frame_leave 1);
     Send 1%nat (frame_presence [player 0 []])].
Proof.
  intros r.
  destruct (disconnect_vacates_and_notifies r 3%nat (Some {| slot := 1 |}))
    as (_ & _ & _ & _ & _ & _ & Hout & _).
  - vm_compute. reflexivity.
  - rewrite Hout. vm_compute. reflexivity.
Defined.

(** C7 on a third admission: the welcome lists seats 0, 1 and 2, and seats 0
    and 1 are told of the join. *)
Lemma admission_welcome_and_join_notice_witness :
  let r := run ascii_toLowerCase sample_parse two_admissions new_Room in
  log_of (fetch ascii_toLowerCase upgrade_request) r
  = [Accept 5%nat;
     Send 5%nat (frame_welcome 2 [player 0 []; player 1 []; player 2 []]);
     Send 1%nat (frame_join 2 (JStr []));
     Send 3%nat (frame_join 2 (JStr []))].
Proof.
  intros r.
  destruct (admission_welcome_and_join_notice ascii_toLowerCase sample_parse r
              upgrade_request) as (_ & Hout & _).
  - exists two_admissions. reflexivity.
  - reflexivity.
  - vm_compute. discriminate.
  - rewrite Hout. vm_compute. reflexivity.
Defined.


(** C10 on an [in] without [i] and a [snap] without [st]. *)
Lemma relay_payload_defaults_witness :
  let r := run ascii_toLowerCase sample_parse two_admissions new_Room in
  get (payload_in 0 (JObj [(lit "t", JStr (lit "in"))])) (lit "i") = Some JNull
  /\ get (payload_snap (JObj [(lit "t", JStr (lit "snap"))])) (lit "st")
     = Some JNull.
Proof.
  intros r.
  destruct (relay_payload_defaults sample_parse r 1%nat {| slot := 0 |}
              (Text text_in_bare) (JObj [(lit "t", JStr (lit "in"))]))
    as [Hin _]; [vm_compute; reflexivity..|].
  destruct (relay_payload_defaults sample_parse r 1%nat {| slot := 0 |}
              (Text text_snap_bare) (JObj [(lit "t", JStr (lit "snap"))]))
    as [_ Hsnap]; [vm_compute; reflexivity..|].
  split.
  - apply Hin; [vm_compute; reflexivity|left; vm_compute; reflexivity].
  - apply Hsnap; [vm_compute; reflexivity|left; vm_compute; reflexivity].
Defined.


(** ** The further properties on sample inputs *)

(** X1 on seat 0 (socket 1) sending a ping with [c] 42. *)
Lemma ping_is_answered_to_sender_only_witness :
  let r := run ascii_toLowerCase sample_parse_more two_admissions new_Room in
  log_of (webSocketMessage sample_parse_more 1%nat (Text text_ping_42)) r
  = [Send 1%nat (frame_pong (JNum (num 42)))].
Proof.
  intros r.
  destruct (ping_is_answered_to_sender_only sample_parse_more r 1%nat
              {| slot := 0 |} (Text text_ping_42)
              (JObj [(lit "t", JStr (lit "ping")); (lit "c", JNum (num 42))]))
    as [H _]; [vm_compute; reflexivity..|exact H].
Defined.

(** X2 on a message of an unknown type and on the number 7. *)
Lemma unrecognised_message_is_ignored_witness :
  let r := run ascii_toLowerCase sample_parse_more two_admissions new_Room in
  webSocketMessage sample_parse_more 1%nat (Text text_chat) r = (tt, r, [])
  /\ webSocketMessage sample_parse_more 1%nat (Text text_7) r = (tt, r, []).
Proof.
  intros r. split.
  - apply (unrecognised_message_is_ignored sample_parse_more r 1%nat
             {| slot := 0 |} (Text text_chat)
             (JObj [(lit "t", JStr (lit "chat"))]) (JStr (lit "chat")));
      try (vm_compute; reflexivity); vm_compute; discriminate.
  - apply (unrecognised_message_is_ignored sample_parse_more r 1%nat
             {| slot := 0 |} (Text text_7) (JNum (num 7)) JUndefined);
      try (vm_compute; reflexivity); discriminate.
Defined.

(** X3 on seat 0 sending the text [null]. *)
Lemma null_message_throws_witness :
  let r := run ascii_toLowerCase sample_parse_more two_admissions new_Room in
  log_of (webSocketMessage sample_parse_more 1%nat (Text text_null)) r
  = [Uncaught_TypeError].
Proof.
  intros r.
  destruct (null_message_throws sample_parse_more r 1%nat {| slot := 0 |}
              (Text text_null)) as [H _]; [vm_compute; reflexivity..|exact H].
Defined.

(** X4 on the fifth upgrade of a full room, whose socket is 9. *)
Lemma rejected_socket_is_inert_witness :
  let r := run ascii_toLowerCase sample_parse four_admissions new_Room in
  let r' := room_after (fetch ascii_toLowerCase upgrade_request) r in
  webSocketClose 9%nat r' = (tt, r', []).
Proof.
  intros r r'.
  destruct (rejected_socket_is_inert ascii_toLowerCase sample_parse r
              upgrade_request (Text text_join_Al)) as (_ & H & _).
  - exists four_admissions. reflexivity.
  - reflexivity.
  - intros k Hk.
    assert (k = 0 \/ k = 1 \/ k = 2 \/ k = 3) as [-> | [-> | [-> | ->]]] by lia;
      vm_compute; reflexivity.
  - exact H.
Defined.

(** X5 on a request without the header. *)
Lemma fetch_without_upgrade_is_426_witness :
  status (result_of (fetch ascii_toLowerCase plain_request) new_Room) = 426.
Proof.
  unfold result_of.
  rewrite (fetch_without_upgrade_is_426 ascii_toLowerCase new_Room plain_request).
  - reflexivity.
  - left. reflexivity.
Defined.

(** X6 on a room with two seats taken and on a full one. *)
Lemma allocSlot_fails_iff_full_witness :
  _allocSlot (run ascii_toLowerCase sample_parse four_admissions new_Room) = -1
  /\ -1 <= _allocSlot (run ascii_toLowerCase sample_parse two_admissions new_Room) < 4.
Proof.
  split.
  - apply (allocSlot_fails_iff_full ascii_toLowerCase sample_parse).
    + exists four_admissions. reflexivity.
    + vm_compute. reflexivity.
  - apply (allocSlot_fails_iff_full ascii_toLowerCase sample_parse).
    exists two_admissions. reflexivity.
Defined.

(** X7 on a room with two seats taken. *)
Lemma presence_lists_exactly_the_sessions_witness :
  let r := run ascii_toLowerCase sample_parse two_admissions new_Room in
  length (_playersList r) = occupied_seats r.
Proof.
  intros r.
  apply (presence_lists_exactly_the_sessions ascii_toLowerCase sample_parse).
  exists two_admissions. reflexivity.
Defined.

(** X8 on seat 0 (socket 1), over a join, a departure and an admission of
    others. *)
Lemma seat_binding_never_changes_witness :
  let r := run ascii_toLowerCase sample_parse two_admissions new_Room in
  state (run ascii_toLowerCase sample_parse
           [EMessage 3%nat (Text text_join_Al); EClose 3%nat;
            EFetch upgrade_request] r) !! 1%nat
  = Some {| slot := 0 |}.
Proof.
  intros r.
  apply (seat_binding_never_changes ascii_toLowerCase sample_parse).
  - exists two_admissions. reflexivity.
  - vm_compute. reflexivity.
Defined.

(** X9 on seat 0 (socket 1) when seat 1 (socket 3) closes. *)
Lemma other_events_leave_session_seated_witness :
  let r := run ascii_toLowerCase sample_parse two_admissions new_Room in
  session_at (room_after (handle ascii_toLowerCase sample_parse (EClose 3%nat)) r)
             1%nat 0.
Proof.
  intros r.
  apply (other_events_leave_session_seated ascii_toLowerCase sample_parse).
  - exists two_admissions. reflexivity.
  - split; vm_compute; reflexivity.
  - intros w' meta [H|H] Hmeta; [|discriminate].
    injection H as <-. vm_compute in Hmeta. injection Hmeta as <-.
    cbn. lia.
Defined.

(** X10 on seat 0 (socket 1) after seat 1 joined and left. *)
Lemma open_sessions_hold_their_seats_witness :
  session_at (run ascii_toLowerCase sample_parse
                (two_admissions
                 ++ [EMessage 3%nat (Text text_join_Al); EClose 3%nat])
                new_Room)
             1%nat 0.
Proof.
  apply (open_sessions_hold_their_seats ascii_toLowerCase sample_parse
           (two_admissions ++ [EMessage 3%nat (Text text_join_Al); EClose 3%nat])
           1%nat {| slot := 0 |}).
  - vm_compute. reflexivity.
  - vm_compute. reflexivity.
  - vm_compute. intros [H|[]]. discriminate.
Defined.

(** X11 on the close of seat 1 (socket 3) in a room of two. *)
Lemma remaining_sessions_get_leave_then_presence_witness :
  let r := run ascii_toLowerCase sample_parse two_admissions new_Room in
  sent_to 1%nat (log_of (webSocketClose 3%nat) r)
  = [frame_leave 1; frame_presence [player 0 []]].
Proof.
  intros r.
  destruct (remaining_sessions_get_leave_then_presence ascii_toLowerCase
              sample_parse r 3%nat 1) as [_ H].
  - exists two_admissions. reflexivity.
  - split; vm_compute; reflexivity.
  - rewrite (H 1%nat); [vm_compute; reflexivity|vm_compute; auto|lia].
Defined.

(** X12 on the fifth upgrade of a full room. *)
Lemma only_refused_sockets_are_closed_witness :
  let r := run ascii_toLowerCase sample_parse four_admissions new_Room in
  _allocSlot r = -1 /\ state r !! 9%nat = None.
Proof.
  intros r.
  destruct (only_refused_sockets_are_closed ascii_toLowerCase sample_parse r
              (EFetch upgrade_request) 9%nat 1008 (lit "room full"))
    as (_ & _ & _ & _ & Hfull & Hfree & _).
  - exists four_admissions. reflexivity.
  - vm_compute. auto.
  - split; assumption.
Defined.

(** X13 on the frame seat 1 (socket 3) gets when seat 0 sends an [in]. *)
Lemma frames_go_to_sessions_only_witness :
  let r := run ascii_toLowerCase sample_parse two_admissions new_Room in
  In 3%nat (JsMap.values (sockets r))
  \/ (exists message, EMessage 1%nat (Text text_in_bare) = EMessage 3%nat message)
  \/ (exists request,
        EMessage 1%nat (Text text_in_bare) = EFetch request
        /\ 3%nat = S (fresh r)).
Proof.
  intros r.
  apply (frames_go_to_sessions_only ascii_toLowerCase sample_parse r
           (EMessage 1%nat (Text text_in_bare)) 3%nat
           (JObj [(lit "t", JStr (lit "in")); (lit "slot", JNum (num 0));
                  (lit "i", JNull)])).
  vm_compute. auto.
Defined.

(** X14 on a room with two seats taken. *)
Lemma occupancy_changes_by_one_witness :
  let r := run ascii_toLowerCase sample_parse two_admissions new_Room in
  occupied_seats (room_after (fetch ascii_toLowerCase upgrade_request) r) = 3%nat
  /\ S (occupied_seats (room_after (webSocketClose 3%nat) r)) = 2%nat.
Proof.
  intros r.
  destruct (occupancy_changes_by_one ascii_toLowerCase sample_parse r)
    as (Hadmit & _ & Hclose).
  - exists two_admissions. reflexivity.
  - split.
    + rewrite Hadmit; [reflexivity|reflexivity|vm_compute; discriminate].
    + rewrite (Hclose 3%nat 1); [reflexivity|split; vm_compute; reflexivity].
Defined.

(** X15 on a third admission that leaves at once. *)
Lemma admit_then_disconnect_restores_seats_witness :
  let r := run ascii_toLowerCase sample_parse two_admissions new_Room in
  sockets (room_after (webSocketClose 5%nat)
             (room_after (fetch ascii_toLowerCase upgrade_request) r))
  = sockets r.
Proof.
  intros r.
  destruct (admit_then_disconnect_restores_seats ascii_toLowerCase r
              upgrade_request) as [H _].
  - reflexivity.
  - vm_compute. discriminate.
  - exact H.
Defined.

(** X16 on a full room that seat 1 (socket 3) leaves. *)
Lemma vacated_seat_is_reused_witness :
  let r := run ascii_toLowerCase sample_parse four_admissions new_Room in
  _allocSlot (room_after (webSocketClose 3%nat) r) = 1.
Proof.
  intros r.
  rewrite (vacated_seat_is_reused ascii_toLowerCase sample_parse r 3%nat
             {| slot := 1 |}).
  - vm_compute. reflexivity.
  - exists four_admissions. reflexivity.
  - vm_compute. reflexivity.
Defined.

(** X17 on the admission that follows a named seat 1 leaving. *)
Lemma new_occupant_starts_unnamed_witness :
  let r := run ascii_toLowerCase sample_parse
             (two_admissions
              ++ [EMessage 3%nat (Text text_join_Al); EClose 3%nat])
             new_Room in
  _allocSlot r = 1 /\ names r !! 1 = Some [].
Proof.
  intros r. split; [vm_compute; reflexivity|].
  destruct (new_occupant_starts_unnamed ascii_toLowerCase sample_parse r
              upgrade_request) as [H _].
  - eexists. split; [|reflexivity]. vm_compute. reflexivity.
  - reflexivity.
  - vm_compute. discriminate.
  - exact H.
Defined.

(** X19 on an upgrade request that names no room. *)
Lemma missing_room_is_lobby_witness :
  worker_fetch ascii_toLowerCase 0 (ws_request None) ∅
  = worker_fetch ascii_toLowerCase 0 (ws_request (Some (lit "lobby"))) ∅.
Proof.
  apply (missing_room_is_lobby ascii_toLowerCase 0 (ws_request None) ∅).
  left. reflexivity.
Defined.

(** X18 on four upgrades for the room [abc], one for [xyz] and a fifth for
    [abc]: [xyz] is where its single admission takes it, with seat 0 taken by
    socket 1, and [abc] is full. *)
Lemma rooms_are_independent_witness :
  let evs := [WFetch 0 (ws_request (Some (lit "abc")));
              WFetch 1 (ws_request (Some (lit "abc")));
              WFetch 2 (ws_request (Some (lit "abc")));
              WFetch 3 (ws_request (Some (lit "abc")));
              WFetch 4 (ws_request (Some (lit "xyz")));
              WFetch 5 (ws_request (Some (lit "abc")))] in
  let world := world_run ascii_toLowerCase sample_parse evs ∅ in
  sockets (instance world (lit "xyz")) = [(0, 1%nat)]
  /\ _allocSlot (instance world (lit "abc")) = -1.
Proof.
  intros evs world. unfold world.
  rewrite !(rooms_are_independent ascii_toLowerCase sample_parse).
  split; vm_compute; reflexivity.
Defined.

(** X20 on seat 1 (socket 3) joining with the name Al. *)
Lemma join_name_is_kept_or_cut_witness :
  let r := run ascii_toLowerCase sample_parse two_admissions new_Room in
  names (room_after (webSocketMessage sample_parse 3%nat (Text text_join_Al)) r)
    !! 1 = Some (lit "Al").
Proof.
  intros r.
  destruct (join_name_is_kept_or_cut sample_parse r 3%nat {| slot := 1 |}
              (Text text_join_Al)
              (JObj [(lit "t", JStr (lit "join")); (lit "name", JStr (lit "Al"))])
              (lit "Al")) as [H _]; [vm_compute; reflexivity..|].
  apply H. vm_compute. lia.
Defined.

(** X21 on the same join: seat 0 (socket 1) gets the notice only. *)
Lemma join_reaches_every_session_once_witness :
  let r := run ascii_toLowerCase sample_parse two_admissions new_Room in
  sent_to 1%nat (log_of (webSocketMessage sample_parse 3%nat (Text text_join_Al)) r)
  = [frame_join 1 (JStr (lit "Al"))].
Proof.
  intros r.
  destruct (join_reaches_every_session_once ascii_toLowerCase sample_parse r
              3%nat 1 (Text text_join_Al)
              (JObj [(lit "t", JStr (lit "join")); (lit "name", JStr (lit "Al"))]))
    as [_ H].
  - exists two_admissions. reflexivity.
  - split; vm_compute; reflexivity.
  - vm_compute. reflexivity.
  - vm_compute. reflexivity.
  - apply (H 1%nat); [vm_compute; auto|lia].
Defined.
